(** * EventSearchRepository: the search-index layer of the relay

    A shallow embedding of [EventSearchRepository] (the MeiliSearch backed
    repository of the relay) and of the properties its specification states.

    Conventions of the embedding.
    - A JavaScript [number] that holds a timestamp, a kind or a limit is an
      integer; it is a [Z] here.  On integers of magnitude below 2^53 the
      JavaScript operations used by the code ([Math.min], [===], template
      interpolation) agree with the ones on [Z] and with decimal rendering.
    - The ranking score returned by the engine is a fraction; the score
      arithmetic of [findTopIdsWithScore] is done on binary64 floats, as the
      JavaScript engine does it.
    - [null] and [undefined] are both [None].
    - An [async] method is a tree of engine interactions ([Async]); running it
      against an engine yields an outcome and the trace of what happened. *)

From Stdlib Require Import ZArith List String Ascii Bool Lia Sorted.
From Stdlib Require Import DecimalString Floats.
Import ListNotations.

Local Open Scope string_scope.
Local Open Scope Z_scope.

(** ** JavaScript primitives used by the repository *)

(** Rendering of an integer inside a template literal or by [Array.join]. *)
Definition numberToString (n : Z) : string :=
  NilZero.string_of_int (Z.to_int n).

(** [Array.prototype.join] on an array of strings. *)
Definition join (separator : string) (xs : list string) : string :=
  String.concat separator xs.

(** [Array.prototype.push], as a value. *)
Definition push {A : Type} (arr : list A) (x : A) : list A := arr ++ [x].

(** [Array.prototype.forEach] with a body that updates an accumulator. *)
Definition forEach {A S : Type} (xs : list A) (body : S -> A -> S) (s : S) : S :=
  fold_left body xs s.

(** Truthiness of [arr?.length]: the array is there and is not empty. *)
Definition hasLength {A : Type} (arr : option (list A)) : bool :=
  match arr with
  | Some (_ :: _) => true
  | _ => false
  end.

(** Truthiness of an optional number: [undefined], [null] and [0] are falsy. *)
Definition truthyNumber (n : option Z) : bool :=
  match n with
  | Some v => negb (v =? 0)
  | None => false
  end.

(** Truthiness of an optional string: [undefined] and the empty string are falsy. *)
Definition truthyString (s : option string) : bool :=
  match s with
  | Some EmptyString => false
  | Some _ => true
  | None => false
  end.

(** lodash [isNil]. *)
Definition isNil {A : Type} (x : option A) : bool :=
  match x with
  | None => true
  | Some _ => false
  end.

(** [Array.prototype.includes] on an array of integers. *)
Definition includes (xs : list Z) (x : Z) : bool :=
  existsb (Z.eqb x) xs.

(** The elements of an optional array ([undefined] has none). *)
Definition elements {A : Type} (arr : option (list A)) : list A :=
  match arr with
  | Some xs => xs
  | None => []
  end.

(** Conversion of an integer to the binary64 number JavaScript computes with
    (round to nearest even; exact below 2^53). *)
Definition numberOfZ (n : Z) : float :=
  SF2Prim (SpecFloat.binary_normalize prec emax n 0 false).

(** ** Data model *)

(** The [Event] entity.  The class is declared outside the repository file;
    these are the fields the repository reads and writes. *)
Module Event.
Record t : Type := mk {
  id : string;
  pubkey : string;
  author : string;
  createdAt : Z;
  kind : Z;
  tags : list (list string);
  genericTags : list string;
  content : string;
  sig : string;
  expiredAt : option Z;
  dTagValue : option string
}.

(** [new Event()]: no field has been assigned yet. *)
Definition new : t :=
  mk "" "" "" 0 0 [] [] "" "" None None.

(** Field assignments [event.f = v]. *)
Definition set_id (v : string) (e : t) : t :=
  mk v (pubkey e) (author e) (createdAt e) (kind e) (tags e) (genericTags e)
     (content e) (sig e) (expiredAt e) (dTagValue e).
Definition set_pubkey (v : string) (e : t) : t :=
  mk (id e) v (author e) (createdAt e) (kind e) (tags e) (genericTags e)
     (content e) (sig e) (expiredAt e) (dTagValue e).
Definition set_author (v : string) (e : t) : t :=
  mk (id e) (pubkey e) v (createdAt e) (kind e) (tags e) (genericTags e)
     (content e) (sig e) (expiredAt e) (dTagValue e).
Definition set_createdAt (v : Z) (e : t) : t :=
  mk (id e) (pubkey e) (author e) v (kind e) (tags e) (genericTags e)
     (content e) (sig e) (expiredAt e) (dTagValue e).
Definition set_kind (v : Z) (e : t) : t :=
  mk (id e) (pubkey e) (author e) (createdAt e) v (tags e) (genericTags e)
     (content e) (sig e) (expiredAt e) (dTagValue e).
Definition set_tags (v : list (list string)) (e : t) : t :=
  mk (id e) (pubkey e) (author e) (createdAt e) (kind e) v (genericTags e)
     (content e) (sig e) (expiredAt e) (dTagValue e).
Definition set_genericTags (v : list string) (e : t) : t :=
  mk (id e) (pubkey e) (author e) (createdAt e) (kind e) (tags e) v
     (content e) (sig e) (expiredAt e) (dTagValue e).
Definition set_content (v : string) (e : t) : t :=
  mk (id e) (pubkey e) (author e) (createdAt e) (kind e) (tags e) (genericTags e)
     v (sig e) (expiredAt e) (dTagValue e).
Definition set_sig (v : string) (e : t) : t :=
  mk (id e) (pubkey e) (author e) (createdAt e) (kind e) (tags e) (genericTags e)
     (content e) v (expiredAt e) (dTagValue e).
Definition set_expiredAt (v : option Z) (e : t) : t :=
  mk (id e) (pubkey e) (author e) (createdAt e) (kind e) (tags e) (genericTags e)
     (content e) (sig e) v (dTagValue e).
Definition set_dTagValue (v : option string) (e : t) : t :=
  mk (id e) (pubkey e) (author e) (createdAt e) (kind e) (tags e) (genericTags e)
     (content e) (sig e) (expiredAt e) v.
End Event.

(** The [EventDocument] type: the flat document the engine indexes. *)
Module EventDocument.
Record t : Type := mk {
  id : string;
  pubkey : string;
  author : string;
  createdAt : Z;
  kind : Z;
  tags : list (list string);
  genericTags : list string;
  content : string;
  sig : string;
  expiredAt : option Z;
  dTagValue : option string
}.
End EventDocument.

(** [EventSearchRepositoryFilter]: the ten fields picked from [SearchFilter]. *)
Module Filter.
Record t : Type := mk {
  ids : option (list string);
  authors : option (list string);
  dTagValues : option (list string);
  genericTagsCollection : option (list (list string));
  kinds : option (list Z);
  limit : option Z;
  search : option string;
  (* opaque to the repository: never read *)
  searchOptions : option (list (string * string));
  since : option Z;
  until : option Z
}.

(** The filter with every field absent. *)
Definition empty : t :=
  mk None None None None None None None None None None.
End Filter.

(** ** Pure helpers of the repository *)

(** [toEventDocument]. *)
Definition toEventDocument (event : Event.t) : EventDocument.t :=
  {| EventDocument.id := Event.id event;
     EventDocument.pubkey := Event.pubkey event;
     EventDocument.createdAt := Event.createdAt event;
     EventDocument.kind := Event.kind event;
     EventDocument.tags := Event.tags event;
     EventDocument.genericTags := Event.genericTags event;
     EventDocument.content := Event.content event;
     EventDocument.sig := Event.sig event;
     EventDocument.expiredAt := Event.expiredAt event;
     EventDocument.author := Event.author event;
     EventDocument.dTagValue := Event.dTagValue event |}.

(** [toEvent]: a fresh [Event], then one assignment per field, in the order of
    the source. *)
Definition toEvent (eventDocument : EventDocument.t) : Event.t :=
  let event := Event.new in
  let event := Event.set_id (EventDocument.id eventDocument) event in
  let event := Event.set_pubkey (EventDocument.pubkey eventDocument) event in
  let event := Event.set_createdAt (EventDocument.createdAt eventDocument) event in
  let event := Event.set_kind (EventDocument.kind eventDocument) event in
  let event := Event.set_tags (EventDocument.tags eventDocument) event in
  let event := Event.set_content (EventDocument.content eventDocument) event in
  let event := Event.set_sig (EventDocument.sig eventDocument) event in
  let event := Event.set_expiredAt (EventDocument.expiredAt eventDocument) event in
  let event := Event.set_genericTags (EventDocument.genericTags eventDocument) event in
  let event := Event.set_dTagValue (EventDocument.dTagValue eventDocument) event in
  let event := Event.set_author (EventDocument.author eventDocument) event in
  event.

(** [getLimitFrom]; [defaultLimit] is the optional second parameter, 100 when
    the caller leaves it out. *)
Definition getLimitFrom (filter : Filter.t) (defaultLimit : option Z) : Z :=
  let defaultLimit := match defaultLimit with Some d => d | None => 100 end in
  Z.min (if isNil (Filter.limit filter)
         then defaultLimit
         else match Filter.limit filter with Some l => l | None => defaultLimit end)
        1000.

(** The clauses [buildSearchFilters] can emit. *)
Definition timeValidityClause (now : Z) : string :=
  "expiredAt IS NULL OR expiredAt >= " ++ numberToString now.
Definition idsClause (ids : list string) : string :=
  "id IN [" ++ join ", " ids ++ "]".
Definition kindsClause (kinds : list Z) : string :=
  "kind IN [" ++ join ", " (map numberToString kinds) ++ "]".
Definition sinceClause (since : Z) : string :=
  "createdAt >= " ++ numberToString since.
Definition untilClause (until : Z) : string :=
  "createdAt <= " ++ numberToString until.
Definition authorsClause (authors : list string) : string :=
  "author IN [" ++ join ", " authors ++ "]".
Definition genericTagsClause (genericTags : list string) : string :=
  "genericTags IN [" ++ join ", " genericTags ++ "]".
Definition dTagValuesClause (dTagValues : list string) : string :=
  "dTagValue IN [" ++ join ", " dTagValues ++ "]".

(** [buildSearchFilters].  [now] is what [getTimestampInSeconds()] returns
    when the method reads the clock (the helper lives outside this file). *)
Definition buildSearchFilters (now : Z) (filter : Filter.t) : list string :=
  let searchFilters := [timeValidityClause now] in
  let searchFilters :=
    if hasLength (Filter.ids filter)
    then push searchFilters (idsClause (elements (Filter.ids filter)))
    else searchFilters in
  let searchFilters :=
    if hasLength (Filter.kinds filter)
    then push searchFilters (kindsClause (elements (Filter.kinds filter)))
    else searchFilters in
  let searchFilters :=
    if truthyNumber (Filter.since filter)
    then push searchFilters
           (sinceClause (match Filter.since filter with Some s => s | None => 0 end))
    else searchFilters in
  let searchFilters :=
    if truthyNumber (Filter.until filter)
    then push searchFilters
           (untilClause (match Filter.until filter with Some u => u | None => 0 end))
    else searchFilters in
  let searchFilters :=
    if hasLength (Filter.authors filter)
    then push searchFilters (authorsClause (elements (Filter.authors filter)))
    else searchFilters in
  let searchFilters :=
    if hasLength (Filter.genericTagsCollection filter)
    then forEach (elements (Filter.genericTagsCollection filter))
           (fun searchFilters genericTags =>
              push searchFilters (genericTagsClause genericTags))
           searchFilters
    else searchFilters in
  let searchFilters :=
    if hasLength (Filter.dTagValues filter)
    then push searchFilters (dTagValuesClause (elements (Filter.dTagValues filter)))
    else searchFilters in
  searchFilters.

(** ** The engine and the asynchronous methods *)

Local Open Scope list_scope.

(** A thrown value or a rejection reason. *)
Definition Error : Type := string.

(** The argument of [index.updateSettings]. *)
Record Settings : Type := {
  searchableAttributes : list string;
  filterableAttributes : list string;
  sortableAttributes : list string;
  rankingRules : list string
}.

(** The options object of [index.search]; a field the caller leaves out is
    [None]. *)
Record SearchParams : Type := {
  sp_limit : Z;
  sp_filter : list string;
  sp_sort : option (list string);
  sp_attributesToRetrieve : option (list string);
  sp_showRankingScore : option bool
}.

(** One hit of a search response: the document and, when asked for, the
    ranking score of the match. *)
Record Hit : Type := {
  hit_document : EventDocument.t;
  _rankingScore : option float
}.

(** The requests the repository sends through its index handle. *)
Inductive EngineCall : Type :=
| UpdateSettings (settings : Settings)
| SearchDocuments (query : option string) (params : SearchParams)
| AddDocuments (documents : list EventDocument.t)
| DeleteDocuments (eventIds : list string).

(** What a fulfilled request carries back to the repository: the hits of a
    search; nothing the code reads for the other requests. *)
Definition reply_type (c : EngineCall) : Type :=
  match c with
  | SearchDocuments _ _ => list Hit
  | _ => unit
  end.

(** The body of an [async] method: it returns, throws, logs through the
    injected logger, or sends a request and awaits its settlement. *)
Inductive Async (A : Type) : Type :=
| Return (a : A)
| Throw (e : Error)
| LogError (e : Error) (k : Async A)
| Await (c : EngineCall) (k : Error + reply_type c -> Async A).

Arguments Return {A} a.
Arguments Throw {A} e.
Arguments LogError {A} e k.
Arguments Await {A} c k.

Fixpoint bind {A B : Type} (m : Async A) (f : A -> Async B) : Async B :=
  match m with
  | Return a => f a
  | Throw e => Throw e
  | LogError e k => LogError e (bind k f)
  | Await c k => Await c (fun r => bind (k r) f)
  end.

(** [try { m } catch (error) { handler error }]. *)
Fixpoint try_catch {A : Type} (m : Async A) (handler : Error -> Async A) : Async A :=
  match m with
  | Return a => Return a
  | Throw e => handler e
  | LogError e k => LogError e (try_catch k handler)
  | Await c k => Await c (fun r => try_catch (k r) handler)
  end.

(** [await request]: a rejection is rethrown at the [await]. *)
Definition await (c : EngineCall) : Async (reply_type c) :=
  Await c (fun r => match r with
                    | inl e => Throw e
                    | inr v => Return v
                    end).

Declare Scope async_scope.
Delimit Scope async_scope with async.
Notation "x <- m ;; k" := (bind m (fun x => k))
  (at level 61, m at next level, right associativity) : async_scope.
Notation "'try' m 'catch' e => h" := (try_catch m (fun e => h))
  (at level 62, m at next level, e name, h at level 200) : async_scope.

(** What an observer of the process sees, in the order it happens. *)
Inductive Observation : Type :=
| Issued (c : EngineCall)
| Replied (c : EngineCall) (failure : option Error)
| Logged (e : Error).

Definition Trace : Type := list Observation.

(** The engine decides how every request settles; it may depend on all that
    happened before. *)
Definition Engine : Type := Trace -> forall c : EngineCall, Error + reply_type c.

Definition failure_of {A : Type} (r : Error + A) : option Error :=
  match r with
  | inl e => Some e
  | inr _ => None
  end.

(** Running one method to completion, with nothing else in flight. *)
Fixpoint run {A : Type} (engine : Engine) (m : Async A) (w : Trace)
  : (Error + A) * Trace :=
  match m with
  | Return a => (inr a, w)
  | Throw e => (inl e, w)
  | LogError e k => run engine k (w ++ [Logged e])
  | Await c k =>
      let w := w ++ [Issued c] in
      let r := engine w c in
      run engine (k r) (w ++ [Replied c (failure_of r)])
  end.

(** *** Promise.all over two promises

    Calling an [async] method runs its body up to its first [await]: the
    logging before it happens at once and the request is sent.  [start]
    records that synchronous part. *)
Fixpoint start {A : Type} (m : Async A) (w : Trace) : Trace :=
  match m with
  | LogError e k => start k (w ++ [Logged e])
  | Await c _ => w ++ [Issued c]
  | _ => w
  end.

(** When two requests are in flight, the scheduler says which one settles
    first ([true]: the first promise's). *)
Definition Scheduler : Type := Trace -> bool.

(** The two started bodies advance as replies arrive.  A body in the pool has
    had its synchronous part recorded by [start] already, so a [LogError] in
    head position is passed over and an [Await] in head position is a request
    in flight.  [Promise.all] is fulfilled when both bodies have returned and
    is rejected as soon as one of them has thrown. *)
Fixpoint all_loop {A B : Type} (engine : Engine) (sched : Scheduler)
  (m1 : Async A) {struct m1} : Async B -> Trace -> (Error + A * B) * Trace :=
  fix inner (m2 : Async B) (w : Trace) {struct m2} : (Error + A * B) * Trace :=
    match m1 with
    | LogError _ k1 => all_loop engine sched k1 m2 w
    | Throw e => (inl e, w)
    | Return a =>
        match m2 with
        | LogError _ k2 => inner k2 w
        | Throw e => (inl e, w)
        | Return b => (inr (a, b), w)
        | Await c2 k2 =>
            let r := engine w c2 in
            inner (k2 r) (start (k2 r) (w ++ [Replied c2 (failure_of r)]))
        end
    | Await c1 k1 =>
        match m2 with
        | LogError _ k2 => inner k2 w
        | Throw e => (inl e, w)
        | Return _ =>
            let r := engine w c1 in
            all_loop engine sched (k1 r) m2
              (start (k1 r) (w ++ [Replied c1 (failure_of r)]))
        | Await c2 k2 =>
            if sched w
            then
              let r := engine w c1 in
              all_loop engine sched (k1 r) m2
                (start (k1 r) (w ++ [Replied c1 (failure_of r)]))
            else
              let r := engine w c2 in
              inner (k2 r) (start (k2 r) (w ++ [Replied c2 (failure_of r)]))
        end
    end.

(** [await Promise.all([m1, m2])]: both methods are called, in order, and the
    pair is awaited. *)
Definition promise_all {A B : Type} (engine : Engine) (sched : Scheduler)
  (m1 : Async A) (m2 : Async B) (w : Trace) : (Error + A * B) * Trace :=
  all_loop engine sched m1 m2 (start m2 (start m1 w)).

(** ** The repository *)

(** The [meiliSearch] section of the configuration. *)
Record MeiliSearchConfig : Type := {
  cfg_host : option string;
  cfg_apiKey : option string;
  cfg_syncEventKinds : list Z
}.

(** The handle [new MeiliSearch({ host, apiKey }).index('events')]. *)
Record Index : Type := {
  idx_host : string;
  idx_apiKey : string;
  idx_uid : string
}.

Record EventSearchRepository : Type := {
  index : option Index;
  syncEventKinds : list Z
}.

(** The constructor: without a host or without an API key no handle is made. *)
Definition constructor (config : MeiliSearchConfig) : EventSearchRepository :=
  if negb (truthyString (cfg_host config)) || negb (truthyString (cfg_apiKey config))
  then {| index := None; syncEventKinds := cfg_syncEventKinds config |}
  else {| index := Some {| idx_host := match cfg_host config with Some h => h | None => "" end;
                           idx_apiKey := match cfg_apiKey config with Some k => k | None => "" end;
                           idx_uid := "events" |};
          syncEventKinds := cfg_syncEventKinds config |}.

(** The settings declared at startup. *)
Definition indexSettings : Settings :=
  {| searchableAttributes := ["content"];
     filterableAttributes :=
       ["id"; "author"; "createdAt"; "kind"; "genericTags"; "delegator";
        "expiredAt"; "dTagValue"];
     sortableAttributes := ["createdAt"];
     rankingRules :=
       ["sort"; "words"; "typo"; "proximity"; "attribute"; "exactness";
        "createdAt:desc"] |}.

(** One entry of the result of [findTopIdsWithScore]. *)
Record TEventIdWithScore : Type := {
  tid : string;
  score : float
}.

(** The score given to a hit. *)
Definition scoreOf (hit : Hit) : float :=
  (numberOfZ (EventDocument.createdAt (hit_document hit))
   * (1 + match _rankingScore hit with Some s => s | None => 0 end))%float.

Section Methods.

Variable this : EventSearchRepository.

Local Open Scope async_scope.

Definition onApplicationBootstrap : Async unit :=
  if isNil (index this) then Return tt
  else _ <- await (UpdateSettings indexSettings) ;; Return tt.

(** [now] is the clock value read by [buildSearchFilters]. *)
Definition find (now : Z) (filter : Filter.t) : Async (list Event.t) :=
  if isNil (index this) then Return []
  else
    let limit := getLimitFrom filter None in
    if limit =? 0 then Return []
    else
      let searchFilters := buildSearchFilters now filter in
      result <- await (SearchDocuments (Filter.search filter)
                         {| sp_limit := limit;
                            sp_filter := searchFilters;
                            sp_sort := Some ["createdAt:desc"];
                            sp_attributesToRetrieve := None;
                            sp_showRankingScore := None |}) ;;
      Return (map (fun hit => toEvent (hit_document hit)) result).

Definition findTopIdsWithScore (now : Z) (filter : Filter.t)
  : Async (list TEventIdWithScore) :=
  if isNil (index this) then Return []
  else
    let limit := getLimitFrom filter None in
    if limit =? 0 then Return []
    else
      let searchFilters := buildSearchFilters now filter in
      result <- await (SearchDocuments (Filter.search filter)
                         {| sp_limit := limit;
                            sp_filter := searchFilters;
                            sp_sort := None;
                            sp_attributesToRetrieve := Some ["id"; "createdAt"];
                            sp_showRankingScore := Some true |}) ;;
      Return (map (fun hit =>
                     {| tid := EventDocument.id (hit_document hit);
                        score := scoreOf hit |})
                  result).

Definition add (event : Event.t) : Async unit :=
  if isNil (index this) || negb (includes (syncEventKinds this) (Event.kind event))
  then Return tt
  else
    try (_ <- await (AddDocuments [toEventDocument event]) ;; Return tt)
    catch error => LogError error (Return tt).

Definition deleteMany (eventIds : list string) : Async unit :=
  if isNil (index this) then Return tt
  else
    try (_ <- await (DeleteDocuments eventIds) ;; Return tt)
    catch error => LogError error (Return tt).

(** [replace]: the two promises are created in the order of the array
    literal and awaited together; a falsy [oldEventId] contributes the
    value [undefined], which is settled from the start. *)
Definition replace (event : Event.t) (oldEventId : option string)
  (engine : Engine) (sched : Scheduler) (w : Trace) : (Error + unit) * Trace :=
  if isNil (index this) then (inr tt, w)
  else
    let '(settled, w) :=
      promise_all engine sched
        (add event)
        (if truthyString oldEventId
         then deleteMany [match oldEventId with Some i => i | None => "" end]
         else Return tt)
        w in
    match settled with
    | inl e => (inl e, w)
    | inr _ => (inr tt, w)
    end.

End Methods.

(** ** The specification's own definitions *)

(** [resolveLimit], in the words of the specification:
    [min(filter.limit ?? defaultLimit, 1000)] with [defaultLimit = 100]. *)
Definition resolveLimit (filter : Filter.t) : Z :=
  Z.min (match Filter.limit filter with Some l => l | None => 100 end) 1000.

(** [score], in the words of the specification:
    [createdAtSeconds * (1 + matchRankingScore)]. *)
Definition score_spec (createdAtSeconds matchRankingScore : float) : float :=
  (createdAtSeconds * (1 + matchRankingScore))%float.

(** A clause is a genericTags membership clause when it starts as one. *)
Definition isGenericTagsClause (clause : string) : bool :=
  String.prefix "genericTags IN [" clause.

(** A clause is a range clause when it constrains [createdAt]. *)
Definition isRangeClause (clause : string) : bool :=
  String.prefix "createdAt " clause.

(** A clause that is emitted under a condition. *)
Definition clauseIf (condition : bool) (clause : string) : list string :=
  if condition then [clause] else [].

(** Splitting the clause list around the genericTags block. *)
Definition clausesBeforeGenericTags (now : Z) (filter : Filter.t) : list string :=
  [timeValidityClause now]
  ++ clauseIf (hasLength (Filter.ids filter))
       (idsClause (elements (Filter.ids filter)))
  ++ clauseIf (hasLength (Filter.kinds filter))
       (kindsClause (elements (Filter.kinds filter)))
  ++ clauseIf (truthyNumber (Filter.since filter))
       (sinceClause (match Filter.since filter with Some s => s | None => 0 end))
  ++ clauseIf (truthyNumber (Filter.until filter))
       (untilClause (match Filter.until filter with Some u => u | None => 0 end))
  ++ clauseIf (hasLength (Filter.authors filter))
       (authorsClause (elements (Filter.authors filter))).

Definition clausesAfterGenericTags (filter : Filter.t) : list string :=
  clauseIf (hasLength (Filter.dTagValues filter))
    (dTagValuesClause (elements (Filter.dTagValues filter))).

(** The search request sent by [find]. *)
Definition findRequest (now : Z) (filter : Filter.t) : EngineCall :=
  SearchDocuments (Filter.search filter)
    {| sp_limit := getLimitFrom filter None;
       sp_filter := buildSearchFilters now filter;
       sp_sort := Some ["createdAt:desc"];
       sp_attributesToRetrieve := None;
       sp_showRankingScore := None |}.

(** The search request sent by [findTopIdsWithScore]. *)
Definition topIdsRequest (now : Z) (filter : Filter.t) : EngineCall :=
  SearchDocuments (Filter.search filter)
    {| sp_limit := getLimitFrom filter None;
       sp_filter := buildSearchFilters now filter;
       sp_sort := None;
       sp_attributesToRetrieve := Some ["id"; "createdAt"];
       sp_showRankingScore := Some true |}.

(** What the [catch] block adds to the trace after a request settled. *)
Definition logOf (failure : option Error) : Trace :=
  match failure with
  | Some e => [Logged e]
  | None => []
  end.

(** ** Sample configurations, engines and inputs *)

(** An engine that fulfils every request (a search finds nothing). *)
Definition acceptingEngine : Engine :=
  fun _ c =>
    match c return Error + reply_type c with
    | UpdateSettings _ => inr tt
    | SearchDocuments _ _ => inr []
    | AddDocuments _ => inr tt
    | DeleteDocuments _ => inr tt
    end.

(** An engine that rejects every request. *)
Definition rejectingEngine : Engine :=
  fun _ _ => inl "engine unavailable".

(** An engine that rejects the upserts and fulfils the rest. *)
Definition upsertRejectingEngine : Engine :=
  fun w c =>
    match c return Error + reply_type c with
    | AddDocuments _ => inl "upsert refused"
    | c' => acceptingEngine w c'
    end.

Definition sampleDocument (createdAt : Z) : EventDocument.t :=
  EventDocument.mk "a1" "p1" "p1" createdAt 1 [] [] "hello" "s1" None None.

(** An engine whose search returns two hits, one with a ranking score. *)
Definition twoHitsEngine : Engine :=
  fun w c =>
    match c return Error + reply_type c with
    | SearchDocuments _ _ =>
        inr [ {| hit_document := sampleDocument 1000; _rankingScore := Some 0.5%float |};
              {| hit_document := sampleDocument 1000; _rankingScore := None |} ]
    | c' => acceptingEngine w c'
    end.

Definition enabledRepository : EventSearchRepository :=
  constructor {| cfg_host := Some "http://localhost:7700";
                 cfg_apiKey := Some "masterKey";
                 cfg_syncEventKinds := [0; 1; 30023] |}.

Definition disabledRepository : EventSearchRepository :=
  constructor {| cfg_host := None;
                 cfg_apiKey := Some "masterKey";
                 cfg_syncEventKinds := [0; 1; 30023] |}.

Definition sampleEvent (kind : Z) : Event.t :=
  Event.mk "e2" "p1" "p1" 1700000000 kind [["d"; "x"]] ["d:x"] "hello" "s2" None (Some "x").

Definition limitFilter (limit : option Z) : Filter.t :=
  Filter.mk None None None None None limit (Some "nostr") None None None.

(** ** Reading traces and clauses *)

(** The requests sent during a run, in the order they were sent. *)
Fixpoint issuedCalls (t : Trace) : list EngineCall :=
  match t with
  | [] => []
  | Issued c :: t' => c :: issuedCalls t'
  | _ :: t' => issuedCalls t'
  end.

(** The errors handed to the logger during a run, in order. *)
Fixpoint loggedErrors (t : Trace) : list Error :=
  match t with
  | [] => []
  | Logged e :: t' => e :: loggedErrors t'
  | _ :: t' => loggedErrors t'
  end.

(** The characters of a string before the first occurrence of [stop]. *)
Fixpoint wordBefore (stop : ascii) (s : string) : string :=
  match s with
  | EmptyString => EmptyString
  | String a s' => if Ascii.eqb a stop then EmptyString else String a (wordBefore stop s')
  end.

(** The attribute a filter clause starts with. *)
Definition clauseAttribute (clause : string) : string := wordBefore " " clause.

(** The attribute of a sort key such as ["createdAt:desc"]. *)
Definition sortAttribute (key : string) : string := wordBefore ":" key.

(** The position of a clause in the order of [buildSearchFilters], read off
    the way the clause starts. *)
Definition clauseRank (clause : string) : nat :=
  if String.prefix "expiredAt " clause then 0%nat
  else if String.prefix "id " clause then 1%nat
  else if String.prefix "kind " clause then 2%nat
  else if String.prefix "createdAt >=" clause then 3%nat
  else if String.prefix "createdAt <=" clause then 4%nat
  else if String.prefix "author " clause then 5%nat
  else if String.prefix "genericTags " clause then 6%nat
  else 7%nat.

(** An empty array replaced by an absent one. *)
Definition dropEmpty {A : Type} (arr : option (list A)) : option (list A) :=
  match arr with
  | Some [] => None
  | _ => arr
  end.

(** The filter with every empty array field made absent. *)
Definition withoutEmptyArrays (filter : Filter.t) : Filter.t :=
  Filter.mk (dropEmpty (Filter.ids filter))
            (dropEmpty (Filter.authors filter))
            (dropEmpty (Filter.dTagValues filter))
            (dropEmpty (Filter.genericTagsCollection filter))
            (dropEmpty (Filter.kinds filter))
            (Filter.limit filter)
            (Filter.search filter)
            (Filter.searchOptions filter)
            (Filter.since filter)
            (Filter.until filter).

Definition boolToNat (b : bool) : nat := if b then 1%nat else 0%nat.

(** What the read methods may send: nothing, or one search for the filter's
    text that carries the built clauses (the time-validity clause first) and
    the resolved limit, which is then neither 0 nor above 1000. *)
Definition guardedSearch (now : Z) (filter : Filter.t) (calls : list EngineCall)
  : Prop :=
  calls = []
  \/ exists params,
       calls = [SearchDocuments (Filter.search filter) params]
       /\ sp_filter params = buildSearchFilters now filter
       /\ hd_error (sp_filter params) = Some (timeValidityClause now)
       /\ sp_limit params = resolveLimit filter
       /\ sp_limit params <= 1000
       /\ sp_limit params <> 0.

(** An engine whose search returns the documents of two events. *)
Definition indexedEngine : Engine :=
  fun w c =>
    match c return Error + reply_type c with
    | SearchDocuments _ _ =>
        inr [ {| hit_document := toEventDocument (sampleEvent 30023);
                 _rankingScore := None |};
              {| hit_document := toEventDocument (sampleEvent 1);
                 _rankingScore := None |} ]
    | c' => acceptingEngine w c'
    end.

(** ** The event constants (constants/event.ts) *)

(** The numeric enum [EventKind]. *)
Module EventKind.
Inductive t : Type :=
| SET_METADATA
| TEXT_NOTE
| RECOMMEND_SERVER
| CONTACT_LIST
| ENCRYPTED_DIRECT_MESSAGE
| DELETION
| CHANNEL_CREATION
| CHANNEL_METADATA
| CHANNEL_MESSAGE
| CHANNEL_HIDE_MESSAGE
| CHANNEL_MUTE_USER
| CHANNEL_RESERVE_FIRST
| CHANNEL_RESERVE_LAST
| REGULAR_FIRST
| REGULAR_LAST
| REPLACEABLE_FIRST
| REPLACEABLE_LAST
| EPHEMERAL_FIRST
| AUTHENTICATION
| EPHEMERAL_LAST
| PARAMETERIZED_REPLACEABLE_FIRST
| PARAMETERIZED_REPLACEABLE_LAST.

(** The members, in the order of the declaration. *)
Definition members : list t :=
  [SET_METADATA; TEXT_NOTE; RECOMMEND_SERVER; CONTACT_LIST;
   ENCRYPTED_DIRECT_MESSAGE; DELETION; CHANNEL_CREATION; CHANNEL_METADATA;
   CHANNEL_MESSAGE; CHANNEL_HIDE_MESSAGE; CHANNEL_MUTE_USER;
   CHANNEL_RESERVE_FIRST; CHANNEL_RESERVE_LAST; REGULAR_FIRST; REGULAR_LAST;
   REPLACEABLE_FIRST; REPLACEABLE_LAST; EPHEMERAL_FIRST; AUTHENTICATION;
   EPHEMERAL_LAST; PARAMETERIZED_REPLACEABLE_FIRST;
   PARAMETERIZED_REPLACEABLE_LAST].

Definition name (k : t) : string :=
  match k with
  | SET_METADATA => "SET_METADATA"
  | TEXT_NOTE => "TEXT_NOTE"
  | RECOMMEND_SERVER => "RECOMMEND_SERVER"
  | CONTACT_LIST => "CONTACT_LIST"
  | ENCRYPTED_DIRECT_MESSAGE => "ENCRYPTED_DIRECT_MESSAGE"
  | DELETION => "DELETION"
  | CHANNEL_CREATION => "CHANNEL_CREATION"
  | CHANNEL_METADATA => "CHANNEL_METADATA"
  | CHANNEL_MESSAGE => "CHANNEL_MESSAGE"
  | CHANNEL_HIDE_MESSAGE => "CHANNEL_HIDE_MESSAGE"
  | CHANNEL_MUTE_USER => "CHANNEL_MUTE_USER"
  | CHANNEL_RESERVE_FIRST => "CHANNEL_RESERVE_FIRST"
  | CHANNEL_RESERVE_LAST => "CHANNEL_RESERVE_LAST"
  | REGULAR_FIRST => "REGULAR_FIRST"
  | REGULAR_LAST => "REGULAR_LAST"
  | REPLACEABLE_FIRST => "REPLACEABLE_FIRST"
  | REPLACEABLE_LAST => "REPLACEABLE_LAST"
  | EPHEMERAL_FIRST => "EPHEMERAL_FIRST"
  | AUTHENTICATION => "AUTHENTICATION"
  | EPHEMERAL_LAST => "EPHEMERAL_LAST"
  | PARAMETERIZED_REPLACEABLE_FIRST => "PARAMETERIZED_REPLACEABLE_FIRST"
  | PARAMETERIZED_REPLACEABLE_LAST => "PARAMETERIZED_REPLACEABLE_LAST"
  end.

Definition value (k : t) : Z :=
  match k with
  | SET_METADATA => 0
  | TEXT_NOTE => 1
  | RECOMMEND_SERVER => 2
  | CONTACT_LIST => 3
  | ENCRYPTED_DIRECT_MESSAGE => 4
  | DELETION => 5
  | CHANNEL_CREATION => 40
  | CHANNEL_METADATA => 41
  | CHANNEL_MESSAGE => 42
  | CHANNEL_HIDE_MESSAGE => 43
  | CHANNEL_MUTE_USER => 44
  | CHANNEL_RESERVE_FIRST => 45
  | CHANNEL_RESERVE_LAST => 49
  | REGULAR_FIRST => 1000
  | REGULAR_LAST => 9999
  | REPLACEABLE_FIRST => 10000
  | REPLACEABLE_LAST => 19999
  | EPHEMERAL_FIRST => 20000
  | AUTHENTICATION => 22242
  | EPHEMERAL_LAST => 29999
  | PARAMETERIZED_REPLACEABLE_FIRST => 30000
  | PARAMETERIZED_REPLACEABLE_LAST => 39999
  end.

(** The enum object maps a name to its value, [EventKind["TEXT_NOTE"]]. *)
Definition valueOf (key : string) : option Z :=
  fold_left (fun found k => if String.eqb (name k) key then Some (value k) else found)
    members None.

(** A numeric enum also maps a value back to a name, [EventKind[1]]; the
    entries are written in the order of the declaration, a later one
    replacing an earlier one with the same value. *)
Definition nameOf (v : Z) : option string :=
  fold_left (fun found k => if value k =? v then Some (name k) else found)
    members None.

(** A kind lies in the range delimited by two members. *)
Definition between (first last : t) (kind : Z) : bool :=
  (value first <=? kind) && (kind <=? value last).
End EventKind.

(** The string enum [TagName]. *)
Module TagName.
Inductive t : Type :=
| EVENT
| PUBKEY
| D
| NONCE
| EXPIRATION
| DELEGATION
| RELAY
| CHALLENGE.

Definition value (n : t) : string :=
  match n with
  | EVENT => "e"
  | PUBKEY => "p"
  | D => "d"
  | NONCE => "nonce"
  | EXPIRATION => "expiration"
  | DELEGATION => "delegation"
  | RELAY => "relay"
  | CHALLENGE => "challenge"
  end.
End TagName.

Definition STANDARD_SINGLE_LETTER_TAG_NAMES : list string :=
  ["a"; "d"; "e"; "g"; "i"; "l"; "L"; "p"; "r"; "t"].

(** ** Shape of the clause list *)

Lemma forEach_push {A B : Type} (f : A -> B) (xs : list A) (acc : list B) :
  forEach xs (fun acc x => push acc (f x)) acc = acc ++ map f xs.
Proof.
  unfold forEach.
  revert acc.
  induction xs as [| x xs IH]; intros acc; simpl.
  - now rewrite app_nil_r.
  - rewrite IH. unfold push. now rewrite <- app_assoc.
Qed.

Lemma elements_without_length {A : Type} (arr : option (list A)) :
  hasLength arr = false -> elements arr = [].
Proof.
  destruct arr as [[| x xs] |]; simpl; intros H; congruence.
Qed.

Lemma push_if (condition : bool) (acc : list string) (clause : string) :
  (if condition then push acc clause else acc) = acc ++ clauseIf condition clause.
Proof.
  destruct condition; simpl; [reflexivity | now rewrite app_nil_r].
Qed.

(** The clause list, read off the code: the fixed first clause, then one
    block per filter field, in the order of the source. *)
Lemma buildSearchFilters_shape (now : Z) (filter : Filter.t) :
  buildSearchFilters now filter =
    [timeValidityClause now]
    ++ clauseIf (hasLength (Filter.ids filter))
         (idsClause (elements (Filter.ids filter)))
    ++ clauseIf (hasLength (Filter.kinds filter))
         (kindsClause (elements (Filter.kinds filter)))
    ++ clauseIf (truthyNumber (Filter.since filter))
         (sinceClause (match Filter.since filter with Some s => s | None => 0 end))
    ++ clauseIf (truthyNumber (Filter.until filter))
         (untilClause (match Filter.until filter with Some u => u | None => 0 end))
    ++ clauseIf (hasLength (Filter.authors filter))
         (authorsClause (elements (Filter.authors filter)))
    ++ map genericTagsClause (elements (Filter.genericTagsCollection filter))
    ++ clauseIf (hasLength (Filter.dTagValues filter))
         (dTagValuesClause (elements (Filter.dTagValues filter))).
Proof.
  unfold buildSearchFilters; cbv zeta.
  rewrite ?push_if.
  assert (G : forall acc : list string,
             (if hasLength (Filter.genericTagsCollection filter)
              then forEach (elements (Filter.genericTagsCollection filter))
                     (fun searchFilters genericTags =>
                        push searchFilters (genericTagsClause genericTags)) acc
              else acc)
             = acc ++ map genericTagsClause
                        (elements (Filter.genericTagsCollection filter))).
  { intros acc.
    destruct (hasLength (Filter.genericTagsCollection filter)) eqn:E.
    - apply forEach_push.
    - rewrite (elements_without_length _ E). simpl. now rewrite app_nil_r. }
  rewrite ?G, ?push_if.
  now rewrite <- ?app_assoc.
Qed.

Lemma prefix_append (p s : string) : String.prefix p (p ++ s)%string = true.
Proof.
  induction p as [| a p IH]; simpl.
  - now destruct s.
  - destruct (ascii_dec a a) as [_ | N]; [exact IH | now elim N].
Qed.

Lemma filter_clauseIf (test : string -> bool) (condition : bool) (clause : string) :
  filter test (clauseIf condition clause) = clauseIf (condition && test clause) clause.
Proof.
  destruct condition; simpl; [| reflexivity].
  now destruct (test clause).
Qed.

Lemma filter_genericTagsClauses (groups : list (list string)) :
  filter isGenericTagsClause (map genericTagsClause groups)
  = map genericTagsClause groups.
Proof.
  induction groups as [| g groups IH]; simpl; [reflexivity |].
  unfold isGenericTagsClause at 1, genericTagsClause at 1.
  rewrite prefix_append. now rewrite IH.
Qed.

Lemma filter_range_genericTagsClauses (groups : list (list string)) :
  filter isRangeClause (map genericTagsClause groups) = [].
Proof.
  induction groups as [| g groups IH]; simpl; [reflexivity | exact IH].
Qed.

Lemma clauseIf_false (clause : string) : clauseIf false clause = [].
Proof. reflexivity. Qed.

Lemma buildSearchFilters_split (now : Z) (filter : Filter.t) :
  buildSearchFilters now filter =
    clausesBeforeGenericTags now filter
    ++ map genericTagsClause (elements (Filter.genericTagsCollection filter))
    ++ clausesAfterGenericTags filter.
Proof.
  rewrite buildSearchFilters_shape.
  unfold clausesBeforeGenericTags, clausesAfterGenericTags.
  now rewrite <- ?app_assoc.
Qed.

Lemma no_genericTags_clause_before (now : Z) (filter : Filter.t) :
  List.filter isGenericTagsClause (clausesBeforeGenericTags now filter) = [].
Proof.
  unfold clausesBeforeGenericTags.
  rewrite ?filter_app, ?filter_clauseIf.
  change (isGenericTagsClause (idsClause (elements (Filter.ids filter)))) with false.
  change (isGenericTagsClause (kindsClause (elements (Filter.kinds filter)))) with false.
  change (isGenericTagsClause (authorsClause (elements (Filter.authors filter)))) with false.
  change (isGenericTagsClause
            (sinceClause match Filter.since filter with Some s => s | None => 0 end))
    with false.
  change (isGenericTagsClause
            (untilClause match Filter.until filter with Some u => u | None => 0 end))
    with false.
  now rewrite ?andb_false_r.
Qed.

Lemma no_genericTags_clause_after (filter : Filter.t) :
  List.filter isGenericTagsClause (clausesAfterGenericTags filter) = [].
Proof.
  unfold clausesAfterGenericTags.
  rewrite filter_clauseIf.
  change (isGenericTagsClause (dTagValuesClause (elements (Filter.dTagValues filter))))
    with false.
  now rewrite andb_false_r.
Qed.

(** ** Claims about the filter translator *)

(** C1.  A filter whose genericTagsCollection has k groups yields exactly k
    genericTags membership clauses: the genericTags clauses of the built list
    are, in order, the clauses ["genericTags IN [v1, v2, ...]"] of the groups,
    one per group and listing that group's values; they sit as one block of
    the (conjoined) clause list, with no genericTags clause around it. *)
Theorem genericTags_one_clause_per_group :
  forall (now : Z) (filter : Filter.t),
    let groups := elements (Filter.genericTagsCollection filter) in
    let built := buildSearchFilters now filter in
    List.filter isGenericTagsClause built
      = map (fun group => "genericTags IN [" ++ join ", " group ++ "]")%string groups
    /\ List.length (List.filter isGenericTagsClause built) = List.length groups
    /\ exists before after,
         built = before ++ map genericTagsClause groups ++ after
         /\ List.filter isGenericTagsClause before = []
         /\ List.filter isGenericTagsClause after = [].
Proof.
  intros now filter groups built.
  assert (E : List.filter isGenericTagsClause built = map genericTagsClause groups).
  { unfold built. rewrite buildSearchFilters_split.
    rewrite ?filter_app, no_genericTags_clause_before, no_genericTags_clause_after.
    rewrite filter_genericTagsClauses. simpl. now rewrite app_nil_r. }
  split; [exact E |].
  split; [rewrite E; apply List.length_map |].
  exists (clausesBeforeGenericTags now filter), (clausesAfterGenericTags filter).
  split; [apply buildSearchFilters_split |].
  split; [apply no_genericTags_clause_before | apply no_genericTags_clause_after].
Qed.

(** C3.  Whatever the filter, the built clause list contains the
    time-validity clause ["expiredAt IS NULL OR expiredAt >= <now>"], where
    <now> is the clock value in seconds; it is the first clause. *)
Theorem time_validity_clause_always_present :
  forall (now : Z) (filter : Filter.t),
    In ("expiredAt IS NULL OR expiredAt >= " ++ numberToString now)%string
       (buildSearchFilters now filter)
    /\ hd_error (buildSearchFilters now filter) = Some (timeValidityClause now).
Proof.
  intros now filter.
  rewrite buildSearchFilters_shape.
  split; [left |]; reflexivity.
Qed.

(** C4.  Mapping an event to a document and back gives an event with the
    same id, pubkey, kind, content, sig, dTagValue and expiredAt. *)
Theorem toEvent_toEventDocument_roundtrip :
  forall e : Event.t,
    let e' := toEvent (toEventDocument e) in
    Event.id e' = Event.id e
    /\ Event.pubkey e' = Event.pubkey e
    /\ Event.kind e' = Event.kind e
    /\ Event.content e' = Event.content e
    /\ Event.sig e' = Event.sig e
    /\ Event.dTagValue e' = Event.dTagValue e
    /\ Event.expiredAt e' = Event.expiredAt e.
Proof.
  intros e e'. unfold e'.
  destruct e; repeat split; reflexivity.
Qed.

(** The round trip restores the other fields of the event too. *)
Lemma toEvent_toEventDocument_id (e : Event.t) :
  toEvent (toEventDocument e) = e.
Proof. destruct e; reflexivity. Qed.

(** The range clauses of the built list, as the code emits them: the [since]
    clause when [since] is truthy, then the [until] clause when [until] is
    truthy. *)
Lemma range_clauses_emitted (now : Z) (filter : Filter.t) :
  List.filter isRangeClause (buildSearchFilters now filter) =
    clauseIf (truthyNumber (Filter.since filter))
      (sinceClause (match Filter.since filter with Some s => s | None => 0 end))
    ++ clauseIf (truthyNumber (Filter.until filter))
         (untilClause (match Filter.until filter with Some u => u | None => 0 end)).
Proof.
  rewrite buildSearchFilters_shape.
  rewrite ?filter_app, ?filter_clauseIf, filter_range_genericTagsClauses.
  change (List.filter isRangeClause [timeValidityClause now]) with (@nil string).
  change (isRangeClause (idsClause (elements (Filter.ids filter)))) with false.
  change (isRangeClause (kindsClause (elements (Filter.kinds filter)))) with false.
  change (isRangeClause (authorsClause (elements (Filter.authors filter)))) with false.
  change (isRangeClause (dTagValuesClause (elements (Filter.dTagValues filter))))
    with false.
  change (isRangeClause
            (sinceClause match Filter.since filter with Some s => s | None => 0 end))
    with true.
  change (isRangeClause
            (untilClause match Filter.until filter with Some u => u | None => 0 end))
    with true.
  rewrite ?andb_false_r, ?andb_true_r, ?clauseIf_false.
  simpl. now rewrite ?app_nil_r.
Qed.

(** A filter with a non-zero [since] and a non-zero [until] gets both range
    clauses; a filter with neither gets none. *)
Lemma range_clauses_since_until (now since until : Z) (filter : Filter.t) :
  Filter.since filter = Some since -> since <> 0 ->
  Filter.until filter = Some until -> until <> 0 ->
  List.filter isRangeClause (buildSearchFilters now filter)
  = [("createdAt >= " ++ numberToString since)%string;
     ("createdAt <= " ++ numberToString until)%string].
Proof.
  intros Hs Ns Hu Nu.
  rewrite range_clauses_emitted, Hs, Hu. simpl.
  destruct (Z.eqb_spec since 0); [contradiction |].
  destruct (Z.eqb_spec until 0); [contradiction |].
  reflexivity.
Qed.

Lemma range_clauses_absent (now : Z) (filter : Filter.t) :
  Filter.since filter = None ->
  Filter.until filter = None ->
  List.filter isRangeClause (buildSearchFilters now filter) = [].
Proof.
  intros Hs Hu.
  now rewrite range_clauses_emitted, Hs, Hu.
Qed.

Example range_clauses_100_200 :
  List.filter isRangeClause
    (buildSearchFilters 1700000000
       (Filter.mk None None None None None None None None (Some 100) (Some 200)))
  = ["createdAt >= 100"; "createdAt <= 200"].
Proof. reflexivity. Qed.

(** C5.  The [since] and [until] guards test truthiness, not presence: for
    the filter whose [until] is present with value 0 (and the one whose
    [since] is 0) the built list is the time-validity clause alone; no
    ["createdAt <= 0"] (no ["createdAt >= 0"]) clause is emitted. *)
Theorem until_zero_emits_no_range_clause :
  let untilZero :=
    Filter.mk None None None None None None None None None (Some 0) in
  let sinceZero :=
    Filter.mk None None None None None None None None (Some 0) None in
  Filter.until untilZero = Some 0
  /\ buildSearchFilters 1700000000 untilZero = [timeValidityClause 1700000000]
  /\ ~ In "createdAt <= 0" (buildSearchFilters 1700000000 untilZero)
  /\ Filter.since sinceZero = Some 0
  /\ buildSearchFilters 1700000000 sinceZero = [timeValidityClause 1700000000]
  /\ ~ In "createdAt >= 0" (buildSearchFilters 1700000000 sinceZero).
Proof.
  cbv zeta.
  repeat split; try reflexivity.
  - intros [H | []]. discriminate H.
  - intros [H | []]. discriminate H.
Qed.

(** ** Running the read methods *)

Lemma getLimitFrom_resolveLimit (filter : Filter.t) :
  getLimitFrom filter None = resolveLimit filter.
Proof.
  unfold getLimitFrom, resolveLimit.
  now destruct (Filter.limit filter).
Qed.

Section ReadMethods.

Variable this : EventSearchRepository.
Variable engine : Engine.
Variables (now : Z) (filter : Filter.t) (w : Trace).

Lemma run_find_disabled :
  index this = None -> run engine (find this now filter) w = (inr [], w).
Proof. intros H. unfold find. now rewrite H. Qed.

Lemma run_findTopIdsWithScore_disabled :
  index this = None ->
  run engine (findTopIdsWithScore this now filter) w = (inr [], w).
Proof. intros H. unfold findTopIdsWithScore. now rewrite H. Qed.

Lemma run_find_limit_zero :
  getLimitFrom filter None = 0 ->
  run engine (find this now filter) w = (inr [], w).
Proof.
  intros H. unfold find. rewrite H.
  now destruct (isNil (index this)).
Qed.

Lemma run_findTopIdsWithScore_limit_zero :
  getLimitFrom filter None = 0 ->
  run engine (findTopIdsWithScore this now filter) w = (inr [], w).
Proof.
  intros H. unfold findTopIdsWithScore. rewrite H.
  now destruct (isNil (index this)).
Qed.

Lemma run_find_enabled :
  index this <> None -> getLimitFrom filter None <> 0 ->
  run engine (find this now filter) w =
    let c := findRequest now filter in
    let r := engine (w ++ [Issued c]) c in
    (match r with
     | inl e => inl e
     | inr hits => inr (map (fun hit => toEvent (hit_document hit)) hits)
     end,
     w ++ [Issued c] ++ [Replied c (failure_of r)]).
Proof.
  intros Hi Hl. unfold find.
  destruct (index this); [| congruence].
  destruct (Z.eqb_spec (getLimitFrom filter None) 0); [congruence |].
  cbn -[getLimitFrom buildSearchFilters].
  fold (findRequest now filter). rewrite <- app_assoc.
  now destruct (engine _ _).
Qed.

Lemma run_findTopIdsWithScore_enabled :
  index this <> None -> getLimitFrom filter None <> 0 ->
  run engine (findTopIdsWithScore this now filter) w =
    let c := topIdsRequest now filter in
    let r := engine (w ++ [Issued c]) c in
    (match r with
     | inl e => inl e
     | inr hits =>
         inr (map (fun hit => {| tid := EventDocument.id (hit_document hit);
                                 score := scoreOf hit |}) hits)
     end,
     w ++ [Issued c] ++ [Replied c (failure_of r)]).
Proof.
  intros Hi Hl. unfold findTopIdsWithScore.
  destruct (index this); [| congruence].
  destruct (Z.eqb_spec (getLimitFrom filter None) 0); [congruence |].
  cbn -[getLimitFrom buildSearchFilters scoreOf].
  fold (topIdsRequest now filter). rewrite <- app_assoc.
  now destruct (engine _ _).
Qed.

End ReadMethods.

(** ** Claims about the limit and the score *)

(** C2.  The limit resolved by [find] and by [findTopIdsWithScore] is
    min(filter.limit if present, otherwise 100; 1000): it is what
    [getLimitFrom] computes for both, and it is the limit of the one search
    request each of them sends when search is enabled and the limit is not 0.
    When the resolved limit is 0 both return the empty sequence and the
    trace is unchanged: no engine call is issued. *)
Theorem resolved_limit_and_zero_short_circuit :
  forall (this : EventSearchRepository) (engine : Engine) (now : Z)
         (filter : Filter.t) (w : Trace),
    getLimitFrom filter None
      = Z.min (match Filter.limit filter with Some l => l | None => 100 end) 1000
    /\ (resolveLimit filter = 0 ->
        run engine (find this now filter) w = (inr [], w)
        /\ run engine (findTopIdsWithScore this now filter) w = (inr [], w))
    /\ (index this <> None -> resolveLimit filter <> 0 ->
        (exists params failure,
            sp_limit params = resolveLimit filter
            /\ snd (run engine (find this now filter) w)
               = w ++ [Issued (SearchDocuments (Filter.search filter) params);
                       Replied (SearchDocuments (Filter.search filter) params) failure])
        /\ (exists params failure,
            sp_limit params = resolveLimit filter
            /\ snd (run engine (findTopIdsWithScore this now filter) w)
               = w ++ [Issued (SearchDocuments (Filter.search filter) params);
                       Replied (SearchDocuments (Filter.search filter) params) failure])).
Proof.
  intros this engine now filter w.
  split; [apply getLimitFrom_resolveLimit |].
  split.
  - intros H. rewrite <- getLimitFrom_resolveLimit in H.
    split.
    + now apply run_find_limit_zero.
    + now apply run_findTopIdsWithScore_limit_zero.
  - intros Hi Hl. rewrite <- getLimitFrom_resolveLimit in Hl.
    split.
    + rewrite (run_find_enabled this engine now filter w Hi Hl).
      cbv zeta. unfold findRequest. simpl snd.
      eexists _, _. split; [| reflexivity].
      simpl. apply getLimitFrom_resolveLimit.
    + rewrite (run_findTopIdsWithScore_enabled this engine now filter w Hi Hl).
      cbv zeta. unfold topIdsRequest. simpl snd.
      eexists _, _. split; [| reflexivity].
      simpl. apply getLimitFrom_resolveLimit.
Qed.

Lemma resolved_limit_and_zero_short_circuit_witness :
  (resolveLimit (limitFilter (Some 0)) = 0
   /\ run acceptingEngine (find enabledRepository 1700000000 (limitFilter (Some 0))) []
      = (inr [], [])
   /\ run acceptingEngine
        (findTopIdsWithScore enabledRepository 1700000000 (limitFilter (Some 0))) []
      = (inr [], []))
  /\ (index enabledRepository <> None
      /\ resolveLimit (limitFilter (Some 5000)) <> 0
      /\ exists params failure,
           sp_limit params = 1000
           /\ snd (run acceptingEngine
                     (find enabledRepository 1700000000 (limitFilter (Some 5000))) [])
              = [] ++ [Issued (SearchDocuments (Some "nostr") params);
                       Replied (SearchDocuments (Some "nostr") params) failure]).
Proof.
  split.
  - split; [reflexivity |].
    apply (resolved_limit_and_zero_short_circuit
             enabledRepository acceptingEngine 1700000000 (limitFilter (Some 0)) []).
    reflexivity.
  - split; [discriminate |].
    split; [discriminate |].
    apply (resolved_limit_and_zero_short_circuit
             enabledRepository acceptingEngine 1700000000 (limitFilter (Some 5000)) []);
      discriminate.
Defined.

(** C6.  [findTopIdsWithScore] gives every hit the score
    createdAt * (1 + rankingScore), the ranking score counting as 0 when the
    engine supplies none; with createdAt = 1000 the score is 1500 for a
    ranking score of 0.5 and 1000 for a ranking score of 0 or for none. *)
Theorem score_is_createdAt_times_one_plus_ranking :
  forall (this : EventSearchRepository) (engine : Engine) (now : Z)
         (filter : Filter.t) (w : Trace) (hits : list Hit),
    index this <> None ->
    resolveLimit filter <> 0 ->
    engine (w ++ [Issued (topIdsRequest now filter)]) (topIdsRequest now filter)
      = inr hits ->
    fst (run engine (findTopIdsWithScore this now filter) w)
      = inr (map (fun hit =>
                    {| tid := EventDocument.id (hit_document hit);
                       score :=
                         score_spec
                           (numberOfZ (EventDocument.createdAt (hit_document hit)))
                           (match _rankingScore hit with
                            | Some s => s
                            | None => 0%float
                            end) |}) hits)
    /\ (forall document,
          EventDocument.createdAt document = 1000 ->
          scoreOf {| hit_document := document; _rankingScore := Some 0.5%float |}
            = 1500%float
          /\ scoreOf {| hit_document := document; _rankingScore := Some 0%float |}
            = 1000%float
          /\ scoreOf {| hit_document := document; _rankingScore := None |}
            = 1000%float).
Proof.
  intros this engine now filter w hits Hi Hl Hr.
  rewrite <- getLimitFrom_resolveLimit in Hl.
  split.
  - rewrite (run_findTopIdsWithScore_enabled this engine now filter w Hi Hl).
    cbv zeta. rewrite Hr. reflexivity.
  - intros document Hc. unfold scoreOf. simpl. rewrite Hc.
    repeat split; reflexivity.
Qed.

Lemma score_is_createdAt_times_one_plus_ranking_witness :
  index enabledRepository <> None
  /\ resolveLimit (limitFilter None) <> 0
  /\ fst (run twoHitsEngine
            (findTopIdsWithScore enabledRepository 1700000000 (limitFilter None)) [])
     = inr [ {| tid := "a1"; score := 1500%float |};
             {| tid := "a1"; score := 1000%float |} ].
Proof.
  split; [discriminate |].
  split; [discriminate |].
  apply (score_is_createdAt_times_one_plus_ranking
           enabledRepository twoHitsEngine 1700000000 (limitFilter None) []
           [ {| hit_document := sampleDocument 1000; _rankingScore := Some 0.5%float |};
             {| hit_document := sampleDocument 1000; _rankingScore := None |} ]).
  - discriminate.
  - discriminate.
  - reflexivity.
Defined.

(** ** Running the write methods *)

Section WriteMethods.

Variable this : EventSearchRepository.
Variable engine : Engine.
Variable w : Trace.

Lemma run_onApplicationBootstrap_disabled :
  index this = None -> run engine (onApplicationBootstrap this) w = (inr tt, w).
Proof. intros H. unfold onApplicationBootstrap. now rewrite H. Qed.

Lemma run_add_disabled (event : Event.t) :
  index this = None -> run engine (add this event) w = (inr tt, w).
Proof. intros H. unfold add. now rewrite H. Qed.

Lemma run_add_gated (event : Event.t) :
  includes (syncEventKinds this) (Event.kind event) = false ->
  run engine (add this event) w = (inr tt, w).
Proof.
  intros H. unfold add. rewrite H.
  now rewrite orb_true_r.
Qed.

Lemma run_add_enabled (event : Event.t) :
  index this <> None ->
  includes (syncEventKinds this) (Event.kind event) = true ->
  run engine (add this event) w =
    let c := AddDocuments [toEventDocument event] in
    let failure := failure_of (engine (w ++ [Issued c]) c) in
    (inr tt, w ++ [Issued c; Replied c failure] ++ logOf failure).
Proof.
  intros Hi Hk. unfold add. rewrite Hk.
  destruct (index this); [| congruence].
  cbn -[toEventDocument].
  destruct (engine _ _) as [e | []]; cbn -[toEventDocument];
    now rewrite <- ?app_assoc.
Qed.

Lemma run_deleteMany_disabled (eventIds : list string) :
  index this = None -> run engine (deleteMany this eventIds) w = (inr tt, w).
Proof. intros H. unfold deleteMany. now rewrite H. Qed.

Lemma run_deleteMany_enabled (eventIds : list string) :
  index this <> None ->
  run engine (deleteMany this eventIds) w =
    let c := DeleteDocuments eventIds in
    let failure := failure_of (engine (w ++ [Issued c]) c) in
    (inr tt, w ++ [Issued c; Replied c failure] ++ logOf failure).
Proof.
  intros Hi. unfold deleteMany.
  destruct (index this); [| congruence].
  cbn.
  destruct (engine _ _) as [e | []]; cbn; now rewrite <- ?app_assoc.
Qed.

Lemma replace_disabled (event : Event.t) (oldEventId : option string)
  (sched : Scheduler) :
  index this = None -> replace this event oldEventId engine sched w = (inr tt, w).
Proof. intros H. unfold replace. now rewrite H. Qed.

End WriteMethods.

Lemma truthyString_nonempty (s : string) :
  s <> ""%string -> truthyString (Some s) = true.
Proof. destruct s; [congruence | reflexivity]. Qed.

(** The whole run of an enabled [replace] with a truthy old id and an
    admitted kind: both requests leave first, then the two settlements are
    handled in the order the scheduler picks, each followed by its own log
    entry when it failed. *)
Lemma replace_both_trace (this : EventSearchRepository) (event : Event.t)
  (oldEventId : string) (engine : Engine) (sched : Scheduler) (w : Trace) :
  index this <> None ->
  oldEventId <> ""%string ->
  includes (syncEventKinds this) (Event.kind event) = true ->
  let addCall := AddDocuments [toEventDocument event] in
  let deleteCall := DeleteDocuments [oldEventId] in
  let w0 := w ++ [Issued addCall; Issued deleteCall] in
  replace this event (Some oldEventId) engine sched w =
    if sched w0
    then
      let f1 := failure_of (engine w0 addCall) in
      let w1 := w0 ++ [Replied addCall f1] ++ logOf f1 in
      let f2 := failure_of (engine w1 deleteCall) in
      (inr tt, w1 ++ [Replied deleteCall f2] ++ logOf f2)
    else
      let f2 := failure_of (engine w0 deleteCall) in
      let w1 := w0 ++ [Replied deleteCall f2] ++ logOf f2 in
      let f1 := failure_of (engine w1 addCall) in
      (inr tt, w1 ++ [Replied addCall f1] ++ logOf f1).
Proof.
  intros Hi Ho Hk. cbv zeta.
  unfold replace, add, deleteMany.
  rewrite Hk, (truthyString_nonempty _ Ho).
  destruct (index this); [| congruence].
  cbn -[toEventDocument].
  rewrite <- ?app_assoc. cbn -[toEventDocument].
  destruct (sched _).
  - destruct (engine _ (AddDocuments _)) as [e1 | []]; cbn -[toEventDocument];
      rewrite <- ?app_assoc; cbn -[toEventDocument];
      destruct (engine _ (DeleteDocuments _)) as [e2 | []]; cbn -[toEventDocument];
      now rewrite <- ?app_assoc.
  - destruct (engine _ (DeleteDocuments _)) as [e2 | []]; cbn -[toEventDocument];
      rewrite <- ?app_assoc; cbn -[toEventDocument];
      destruct (engine _ (AddDocuments _)) as [e1 | []]; cbn -[toEventDocument];
      now rewrite <- ?app_assoc.
Qed.

(** The run of an enabled [replace] with a truthy old id and a kind the sync
    gate refuses: the deletion alone. *)
Lemma replace_delete_only_trace (this : EventSearchRepository) (event : Event.t)
  (oldEventId : string) (engine : Engine) (sched : Scheduler) (w : Trace) :
  index this <> None ->
  oldEventId <> ""%string ->
  includes (syncEventKinds this) (Event.kind event) = false ->
  let deleteCall := DeleteDocuments [oldEventId] in
  let f := failure_of (engine (w ++ [Issued deleteCall]) deleteCall) in
  replace this event (Some oldEventId) engine sched w =
    (inr tt, w ++ [Issued deleteCall; Replied deleteCall f] ++ logOf f).
Proof.
  intros Hi Ho Hk. cbv zeta.
  unfold replace, add, deleteMany.
  rewrite Hk, (truthyString_nonempty _ Ho).
  destruct (index this); [| congruence].
  cbn.
  destruct (engine _ _) as [e | []]; cbn; now rewrite <- ?app_assoc.
Qed.

Lemma constructor_without_credentials (config : MeiliSearchConfig) :
  truthyString (cfg_host config) && truthyString (cfg_apiKey config) = false ->
  index (constructor config) = None.
Proof.
  unfold constructor.
  destruct (truthyString (cfg_host config)), (truthyString (cfg_apiKey config));
    simpl; intros H; congruence.
Qed.

(** [Promise.all] does not wait for the second promise when the first one is
    rejected: the deletion has been sent and is still in flight. *)
Example promise_all_rejects_early :
  promise_all acceptingEngine (fun _ => true)
    (Throw "boom" : Async unit) (deleteMany enabledRepository ["old"]) []
  = (inl "boom", [Issued (DeleteDocuments ["old"])]).
Proof. reflexivity. Qed.

Ltac in_trace := rewrite ?in_app_iff; simpl; auto 12.

(** ** Claims about the write path *)

(** C7.  [add] for an event whose kind is outside the sync allow-list issues
    no engine call and raises no error.  With search enabled and the kind in
    the allow-list, [add] sends exactly one upsert, of the one document of
    the event; whether the engine fulfils or rejects it, [add] returns
    normally, and a rejection is logged. *)
Theorem add_gate_and_failure_isolation :
  forall (this : EventSearchRepository) (event : Event.t) (engine : Engine)
         (w : Trace),
    (includes (syncEventKinds this) (Event.kind event) = false ->
     run engine (add this event) w = (inr tt, w))
    /\ (index this <> None ->
        includes (syncEventKinds this) (Event.kind event) = true ->
        exists failure,
          run engine (add this event) w
          = (inr tt,
             w ++ [Issued (AddDocuments [toEventDocument event]);
                   Replied (AddDocuments [toEventDocument event]) failure]
               ++ match failure with
                  | Some e => [Logged e]
                  | None => []
                  end)).
Proof.
  intros this event engine w. split.
  - apply run_add_gated.
  - intros Hi Hk. rewrite (run_add_enabled this engine w event Hi Hk).
    cbv zeta. eexists. reflexivity.
Qed.

Lemma add_gate_and_failure_isolation_witness :
  (includes (syncEventKinds enabledRepository) (Event.kind (sampleEvent 7)) = false
   /\ run rejectingEngine (add enabledRepository (sampleEvent 7)) [] = (inr tt, []))
  /\ (index enabledRepository <> None
      /\ includes (syncEventKinds enabledRepository) (Event.kind (sampleEvent 1)) = true
      /\ exists failure,
           run rejectingEngine (add enabledRepository (sampleEvent 1)) []
           = (inr tt,
              [] ++ [Issued (AddDocuments [toEventDocument (sampleEvent 1)]);
                     Replied (AddDocuments [toEventDocument (sampleEvent 1)]) failure]
                 ++ match failure with
                    | Some e => [Logged e]
                    | None => []
                    end)).
Proof.
  split.
  - split; [reflexivity |].
    apply (add_gate_and_failure_isolation
             enabledRepository (sampleEvent 7) rejectingEngine []).
    reflexivity.
  - split; [discriminate |].
    split; [reflexivity |].
    apply (add_gate_and_failure_isolation
             enabledRepository (sampleEvent 1) rejectingEngine []).
    + discriminate.
    + reflexivity.
Defined.

(** C8.  Without an index handle every public operation degrades without
    error: [find] and [findTopIdsWithScore] return the empty sequence, and
    [add], [deleteMany], [replace] and [onApplicationBootstrap] return
    normally; in each case the trace is unchanged, so nothing was sent to the
    engine. *)
Theorem disabled_search_degrades :
  forall (this : EventSearchRepository) (engine : Engine) (sched : Scheduler)
         (now : Z) (filter : Filter.t) (event : Event.t)
         (eventIds : list string) (oldEventId : option string) (w : Trace),
    index this = None ->
    run engine (find this now filter) w = (inr [], w)
    /\ run engine (findTopIdsWithScore this now filter) w = (inr [], w)
    /\ run engine (add this event) w = (inr tt, w)
    /\ run engine (deleteMany this eventIds) w = (inr tt, w)
    /\ replace this event oldEventId engine sched w = (inr tt, w)
    /\ run engine (onApplicationBootstrap this) w = (inr tt, w).
Proof.
  intros this engine sched now filter event eventIds oldEventId w H.
  repeat split.
  - now apply run_find_disabled.
  - now apply run_findTopIdsWithScore_disabled.
  - now apply run_add_disabled.
  - now apply run_deleteMany_disabled.
  - now apply replace_disabled.
  - now apply run_onApplicationBootstrap_disabled.
Qed.

Lemma disabled_search_degrades_witness :
  index disabledRepository = None
  /\ run rejectingEngine (find disabledRepository 1700000000 (limitFilter None)) []
     = (inr [], [])
  /\ run rejectingEngine
       (findTopIdsWithScore disabledRepository 1700000000 (limitFilter None)) []
     = (inr [], [])
  /\ run rejectingEngine (add disabledRepository (sampleEvent 1)) [] = (inr tt, [])
  /\ run rejectingEngine (deleteMany disabledRepository ["old"]) [] = (inr tt, [])
  /\ replace disabledRepository (sampleEvent 1) (Some "old") rejectingEngine
       (fun _ => true) []
     = (inr tt, [])
  /\ run rejectingEngine (onApplicationBootstrap disabledRepository) [] = (inr tt, []).
Proof.
  split; [reflexivity |].
  apply (disabled_search_degrades
           disabledRepository rejectingEngine (fun _ => true) 1700000000
           (limitFilter None) (sampleEvent 1) ["old"] (Some "old") []).
  reflexivity.
Defined.

(** C9.  An enabled [replace] with a (non-empty) old id returns normally
    whatever the engine does and in whatever order the replies arrive; by
    the time it returns, the deletion of the old id has been sent and has
    settled, and so has the upsert of the event whenever the sync gate of
    [add] admits its kind; both requests are sent before either reply is
    handled, and a rejected request is logged, not propagated. *)
Theorem replace_attempts_add_and_delete :
  forall (this : EventSearchRepository) (event : Event.t) (oldEventId : string)
         (engine : Engine) (sched : Scheduler) (w : Trace),
    index this <> None ->
    oldEventId <> ""%string ->
    let addCall := AddDocuments [toEventDocument event] in
    let deleteCall := DeleteDocuments [oldEventId] in
    exists t,
      replace this event (Some oldEventId) engine sched w = (inr tt, w ++ t)
      /\ In (Issued deleteCall) t
      /\ (exists f, In (Replied deleteCall f) t
                    /\ forall e, f = Some e -> In (Logged e) t)
      /\ (includes (syncEventKinds this) (Event.kind event) = true ->
          In (Issued addCall) t
          /\ (exists f, In (Replied addCall f) t
                        /\ forall e, f = Some e -> In (Logged e) t)
          /\ exists t', t = Issued addCall :: Issued deleteCall :: t').
Proof.
  intros this event oldEventId engine sched w Hi Ho addCall deleteCall.
  destruct (includes (syncEventKinds this) (Event.kind event)) eqn:Hk.
  - rewrite (replace_both_trace this event oldEventId engine sched w Hi Ho Hk).
    cbv zeta. fold addCall deleteCall.
    destruct (sched _).
    + set (f1 := failure_of (engine _ addCall)).
      set (f2 := failure_of (engine _ deleteCall)).
      exists ([Issued addCall; Issued deleteCall]
              ++ ([Replied addCall f1] ++ logOf f1)
              ++ [Replied deleteCall f2] ++ logOf f2).
      split; [now rewrite <- ?app_assoc |].
      split; [in_trace |].
      split; [exists f2; split; [in_trace | intros e He; rewrite He; in_trace] |].
      intros _.
      split; [in_trace |].
      split; [exists f1; split; [in_trace | intros e He; rewrite He; in_trace] |].
      eexists. reflexivity.
    + set (f2 := failure_of (engine _ deleteCall)).
      set (f1 := failure_of (engine _ addCall)).
      exists ([Issued addCall; Issued deleteCall]
              ++ ([Replied deleteCall f2] ++ logOf f2)
              ++ [Replied addCall f1] ++ logOf f1).
      split; [now rewrite <- ?app_assoc |].
      split; [in_trace |].
      split; [exists f2; split; [in_trace | intros e He; rewrite He; in_trace] |].
      intros _.
      split; [in_trace |].
      split; [exists f1; split; [in_trace | intros e He; rewrite He; in_trace] |].
      eexists. reflexivity.
  - rewrite (replace_delete_only_trace this event oldEventId engine sched w Hi Ho Hk).
    cbv zeta. fold deleteCall.
    set (f := failure_of (engine _ deleteCall)).
    exists ([Issued deleteCall; Replied deleteCall f] ++ logOf f).
    split; [reflexivity |].
    split; [in_trace |].
    split; [exists f; split; [in_trace | intros e He; rewrite He; in_trace] |].
    discriminate.
Qed.

Lemma replace_attempts_add_and_delete_witness :
  index enabledRepository <> None
  /\ "old"%string <> ""%string
  /\ (let addCall := AddDocuments [toEventDocument (sampleEvent 1)] in
      let deleteCall := DeleteDocuments ["old"] in
      exists t,
        replace enabledRepository (sampleEvent 1) (Some "old")
          upsertRejectingEngine (fun _ => false) []
        = (inr tt, [] ++ t)
        /\ In (Issued deleteCall) t
        /\ (exists f, In (Replied deleteCall f) t
                      /\ forall e, f = Some e -> In (Logged e) t)
        /\ (includes (syncEventKinds enabledRepository) (Event.kind (sampleEvent 1))
            = true ->
            In (Issued addCall) t
            /\ (exists f, In (Replied addCall f) t
                          /\ forall e, f = Some e -> In (Logged e) t)
            /\ exists t', t = Issued addCall :: Issued deleteCall :: t')).
Proof.
  split; [discriminate |].
  split; [discriminate |].
  apply (replace_attempts_add_and_delete
           enabledRepository (sampleEvent 1) "old" upsertRejectingEngine
           (fun _ => false) []);
    discriminate.
Defined.

(** A rejected upsert is logged and the deletion goes through, whichever
    reply comes first. *)
Example replace_with_rejected_upsert :
  replace enabledRepository (sampleEvent 1) (Some "old")
    upsertRejectingEngine (fun _ => true) []
  = (inr tt,
     [Issued (AddDocuments [toEventDocument (sampleEvent 1)]);
      Issued (DeleteDocuments ["old"]);
      Replied (AddDocuments [toEventDocument (sampleEvent 1)]) (Some "upsert refused");
      Logged "upsert refused";
      Replied (DeleteDocuments ["old"]) None])
  /\ replace enabledRepository (sampleEvent 1) (Some "old")
       upsertRejectingEngine (fun _ => false) []
     = (inr tt,
        [Issued (AddDocuments [toEventDocument (sampleEvent 1)]);
         Issued (DeleteDocuments ["old"]);
         Replied (DeleteDocuments ["old"]) None;
         Replied (AddDocuments [toEventDocument (sampleEvent 1)]) (Some "upsert refused");
         Logged "upsert refused"]).
Proof. split; reflexivity. Qed.

(** An old id that is the empty string is falsy: nothing is deleted. *)
Example replace_with_empty_old_id :
  replace enabledRepository (sampleEvent 1) (Some "") acceptingEngine (fun _ => true) []
  = (inr tt,
     [Issued (AddDocuments [toEventDocument (sampleEvent 1)]);
      Replied (AddDocuments [toEventDocument (sampleEvent 1)]) None]).
Proof. reflexivity. Qed.

(** C10.  An enabled [replace] with a (non-empty) old id, for an event whose
    kind is outside the sync allow-list, still sends the deletion of the old
    id and sends no upsert at all: the run is that of the deletion alone,
    and it returns normally. *)
Theorem replace_outside_allow_list_only_deletes :
  forall (this : EventSearchRepository) (event : Event.t) (oldEventId : string)
         (engine : Engine) (sched : Scheduler) (w : Trace),
    index this <> None ->
    oldEventId <> ""%string ->
    includes (syncEventKinds this) (Event.kind event) = false ->
    exists t,
      replace this event (Some oldEventId) engine sched w = (inr tt, w ++ t)
      /\ In (Issued (DeleteDocuments [oldEventId])) t
      /\ (forall documents, ~ In (Issued (AddDocuments documents)) t)
      /\ run engine (deleteMany this [oldEventId]) w = (inr tt, w ++ t).
Proof.
  intros this event oldEventId engine sched w Hi Ho Hk.
  rewrite (replace_delete_only_trace this event oldEventId engine sched w Hi Ho Hk).
  rewrite (run_deleteMany_enabled this engine w [oldEventId] Hi).
  cbv zeta.
  set (f := failure_of (engine _ _)).
  exists ([Issued (DeleteDocuments [oldEventId]);
           Replied (DeleteDocuments [oldEventId]) f] ++ logOf f).
  split; [reflexivity |].
  split; [in_trace |].
  split; [| reflexivity].
  intros documents H.
  rewrite in_app_iff in H. simpl in H.
  destruct H as [[H | [H | []]] | H]; try discriminate H.
  destruct f; simpl in H; [destruct H as [H | []]; discriminate H | contradiction].
Qed.

Lemma replace_outside_allow_list_only_deletes_witness :
  index enabledRepository <> None
  /\ "old"%string <> ""%string
  /\ includes (syncEventKinds enabledRepository) (Event.kind (sampleEvent 7)) = false
  /\ exists t,
       replace enabledRepository (sampleEvent 7) (Some "old")
         acceptingEngine (fun _ => true) []
       = (inr tt, [] ++ t)
       /\ In (Issued (DeleteDocuments ["old"])) t
       /\ (forall documents, ~ In (Issued (AddDocuments documents)) t)
       /\ run acceptingEngine (deleteMany enabledRepository ["old"]) []
          = (inr tt, [] ++ t).
Proof.
  split; [discriminate |].
  split; [discriminate |].
  split; [reflexivity |].
  apply (replace_outside_allow_list_only_deletes
           enabledRepository (sampleEvent 7) "old" acceptingEngine (fun _ => true) []).
  - discriminate.
  - discriminate.
  - reflexivity.
Defined.

(** ** Further properties of the write path *)

(** [deleteMany] with search enabled sends exactly one deletion request, for
    the ids it was given; whether the engine fulfils or rejects it,
    [deleteMany] returns normally, and a rejection is logged. *)
Theorem deleteMany_failure_isolation :
  forall (this : EventSearchRepository) (eventIds : list string)
         (engine : Engine) (w : Trace),
    index this <> None ->
    exists failure,
      run engine (deleteMany this eventIds) w
      = (inr tt,
         w ++ [Issued (DeleteDocuments eventIds);
               Replied (DeleteDocuments eventIds) failure]
           ++ match failure with
              | Some e => [Logged e]
              | None => []
              end)
      /\ failure = failure_of (engine (w ++ [Issued (DeleteDocuments eventIds)])
                                 (DeleteDocuments eventIds)).
Proof.
  intros this eventIds engine w Hi.
  rewrite (run_deleteMany_enabled this engine w eventIds Hi).
  cbv zeta. eexists. split; reflexivity.
Qed.

Lemma deleteMany_failure_isolation_witness :
  index enabledRepository <> None
  /\ exists failure,
       run rejectingEngine (deleteMany enabledRepository ["a"; "b"]) []
       = (inr tt,
          [] ++ [Issued (DeleteDocuments ["a"; "b"]);
                 Replied (DeleteDocuments ["a"; "b"]) failure]
             ++ match failure with
                | Some e => [Logged e]
                | None => []
                end)
       /\ failure = failure_of (rejectingEngine
                                  ([] ++ [Issued (DeleteDocuments ["a"; "b"])])
                                  (DeleteDocuments ["a"; "b"])).
Proof.
  split; [discriminate |].
  apply (deleteMany_failure_isolation enabledRepository ["a"; "b"] rejectingEngine []).
  discriminate.
Defined.

(** [onApplicationBootstrap] with search enabled sends exactly one request,
    the settings declaration, and nothing is caught: its outcome is the
    engine's, so a rejection reaches the caller and is not logged. *)
Theorem bootstrap_declares_settings_once :
  forall (this : EventSearchRepository) (engine : Engine) (w : Trace),
    index this <> None ->
    let c := UpdateSettings indexSettings in
    let r := engine (w ++ [Issued c]) c in
    run engine (onApplicationBootstrap this) w
    = (match r with
       | inl e => inl e
       | inr _ => inr tt
       end,
       w ++ [Issued c; Replied c (failure_of r)]).
Proof.
  intros this engine w Hi. cbv zeta.
  unfold onApplicationBootstrap.
  destruct (index this); [| congruence].
  cbn.
  destruct (engine _ _) as [e | []]; cbn; now rewrite <- ?app_assoc.
Qed.

Lemma bootstrap_declares_settings_once_witness :
  index enabledRepository <> None
  /\ run rejectingEngine (onApplicationBootstrap enabledRepository) []
     = (inl "engine unavailable",
        [Issued (UpdateSettings indexSettings);
         Replied (UpdateSettings indexSettings) (Some "engine unavailable")]).
Proof.
  split; [discriminate |].
  apply (bootstrap_declares_settings_once enabledRepository rejectingEngine []).
  discriminate.
Defined.

Lemma time_validity_head (now : Z) (filter : Filter.t) :
  hd_error (buildSearchFilters now filter) = Some (timeValidityClause now).
Proof. now rewrite buildSearchFilters_shape. Qed.

(** ** Further properties of the read path *)

(** A search the engine rejects is not caught by [find] nor by
    [findTopIdsWithScore]: the rejection is their outcome, and nothing is
    logged. *)
Theorem read_failure_propagates :
  forall (this : EventSearchRepository) (engine : Engine) (now : Z)
         (filter : Filter.t) (w : Trace) (e : Error),
    index this <> None ->
    resolveLimit filter <> 0 ->
    (engine (w ++ [Issued (findRequest now filter)]) (findRequest now filter) = inl e ->
     run engine (find this now filter) w
     = (inl e,
        w ++ [Issued (findRequest now filter);
              Replied (findRequest now filter) (Some e)]))
    /\ (engine (w ++ [Issued (topIdsRequest now filter)]) (topIdsRequest now filter)
        = inl e ->
        run engine (findTopIdsWithScore this now filter) w
        = (inl e,
           w ++ [Issued (topIdsRequest now filter);
                 Replied (topIdsRequest now filter) (Some e)])).
Proof.
  intros this engine now filter w e Hi Hl.
  rewrite <- getLimitFrom_resolveLimit in Hl.
  split; intros Hr.
  - rewrite (run_find_enabled this engine now filter w Hi Hl).
    cbv zeta. now rewrite Hr.
  - rewrite (run_findTopIdsWithScore_enabled this engine now filter w Hi Hl).
    cbv zeta. now rewrite Hr.
Qed.

Lemma read_failure_propagates_witness :
  index enabledRepository <> None
  /\ resolveLimit (limitFilter None) <> 0
  /\ run rejectingEngine (find enabledRepository 1700000000 (limitFilter None)) []
     = (inl "engine unavailable",
        [] ++ [Issued (findRequest 1700000000 (limitFilter None));
               Replied (findRequest 1700000000 (limitFilter None))
                 (Some "engine unavailable")])
  /\ run rejectingEngine
       (findTopIdsWithScore enabledRepository 1700000000 (limitFilter None)) []
     = (inl "engine unavailable",
        [] ++ [Issued (topIdsRequest 1700000000 (limitFilter None));
               Replied (topIdsRequest 1700000000 (limitFilter None))
                 (Some "engine unavailable")]).
Proof.
  split; [discriminate |].
  split; [discriminate |].
  split.
  - apply (read_failure_propagates enabledRepository rejectingEngine 1700000000
             (limitFilter None) [] "engine unavailable");
      [discriminate | discriminate | reflexivity].
  - apply (read_failure_propagates enabledRepository rejectingEngine 1700000000
             (limitFilter None) [] "engine unavailable");
      [discriminate | discriminate | reflexivity].
Defined.

(** When the engine answers a [find] with the documents of a list of events
    (the documents [add] would upsert for them), [find] returns those
    events, in the engine's order. *)
Theorem find_returns_indexed_events :
  forall (this : EventSearchRepository) (engine : Engine) (now : Z)
         (filter : Filter.t) (w : Trace) (hits : list Hit) (events : list Event.t),
    index this <> None ->
    resolveLimit filter <> 0 ->
    engine (w ++ [Issued (findRequest now filter)]) (findRequest now filter)
      = inr hits ->
    map hit_document hits = map toEventDocument events ->
    fst (run engine (find this now filter) w) = inr events.
Proof.
  intros this engine now filter w hits events Hi Hl Hr Hd.
  rewrite <- getLimitFrom_resolveLimit in Hl.
  rewrite (run_find_enabled this engine now filter w Hi Hl).
  cbv zeta. rewrite Hr. simpl. f_equal.
  rewrite <- (map_map hit_document toEvent), Hd, map_map.
  rewrite <- (map_id events) at 2.
  apply map_ext. intros e. apply toEvent_toEventDocument_id.
Qed.

Lemma find_returns_indexed_events_witness :
  index enabledRepository <> None
  /\ resolveLimit (limitFilter None) <> 0
  /\ fst (run indexedEngine (find enabledRepository 1700000000 (limitFilter None)) [])
     = inr [sampleEvent 30023; sampleEvent 1].
Proof.
  split; [discriminate |].
  split; [discriminate |].
  apply (find_returns_indexed_events enabledRepository indexedEngine 1700000000
           (limitFilter None) []
           [ {| hit_document := toEventDocument (sampleEvent 30023);
                _rankingScore := None |};
             {| hit_document := toEventDocument (sampleEvent 1);
                _rankingScore := None |} ]
           [sampleEvent 30023; sampleEvent 1]).
  - discriminate.
  - discriminate.
  - reflexivity.
  - reflexivity.
Defined.

(** [findTopIdsWithScore] returns one entry per hit, with the hit's id, in
    the order the engine returned the hits: the entries are not re-ordered
    by the score it computes. *)
Theorem top_ids_keep_engine_order :
  forall (this : EventSearchRepository) (engine : Engine) (now : Z)
         (filter : Filter.t) (w : Trace) (hits : list Hit),
    index this <> None ->
    resolveLimit filter <> 0 ->
    engine (w ++ [Issued (topIdsRequest now filter)]) (topIdsRequest now filter)
      = inr hits ->
    exists scored,
      fst (run engine (findTopIdsWithScore this now filter) w) = inr scored
      /\ map tid scored = map (fun hit => EventDocument.id (hit_document hit)) hits
      /\ List.length scored = List.length hits.
Proof.
  intros this engine now filter w hits Hi Hl Hr.
  rewrite <- getLimitFrom_resolveLimit in Hl.
  rewrite (run_findTopIdsWithScore_enabled this engine now filter w Hi Hl).
  cbv zeta. rewrite Hr.
  eexists. split; [reflexivity |].
  split.
  - now rewrite map_map.
  - apply List.length_map.
Qed.

Lemma top_ids_keep_engine_order_witness :
  index enabledRepository <> None
  /\ resolveLimit (limitFilter None) <> 0
  /\ exists scored,
       fst (run indexedEngine
              (findTopIdsWithScore enabledRepository 1700000000 (limitFilter None)) [])
       = inr scored
       /\ map tid scored
          = map (fun hit => EventDocument.id (hit_document hit))
              [ {| hit_document := toEventDocument (sampleEvent 30023);
                   _rankingScore := None |};
                {| hit_document := toEventDocument (sampleEvent 1);
                   _rankingScore := None |} ]
       /\ List.length scored = 2%nat.
Proof.
  split; [discriminate |].
  split; [discriminate |].
  apply (top_ids_keep_engine_order enabledRepository indexedEngine 1700000000
           (limitFilter None) []
           [ {| hit_document := toEventDocument (sampleEvent 30023);
                _rankingScore := None |};
             {| hit_document := toEventDocument (sampleEvent 1);
                _rankingScore := None |} ]).
  - discriminate.
  - discriminate.
  - reflexivity.
Defined.

Lemma issuedCalls_app (t1 t2 : Trace) :
  issuedCalls (t1 ++ t2) = issuedCalls t1 ++ issuedCalls t2.
Proof.
  induction t1 as [| o t1 IH]; simpl; [reflexivity |].
  destruct o; simpl; now rewrite IH.
Qed.

Lemma loggedErrors_app (t1 t2 : Trace) :
  loggedErrors (t1 ++ t2) = loggedErrors t1 ++ loggedErrors t2.
Proof.
  induction t1 as [| o t1 IH]; simpl; [reflexivity |].
  destruct o; simpl; now rewrite IH.
Qed.

Lemma resolveLimit_le_1000 (filter : Filter.t) : resolveLimit filter <= 1000.
Proof. unfold resolveLimit. apply Z.le_min_r. Qed.

(** Whatever the repository, the engine and the filter, a run of [find] or
    of [findTopIdsWithScore] only extends the trace, logs nothing, and sends
    either nothing or a single search request: one for the filter's text,
    carrying the built clauses with the time-validity clause first and a
    limit that is the resolved one, not 0 and at most 1000. *)
Theorem read_methods_send_guarded_search :
  forall (this : EventSearchRepository) (engine : Engine) (now : Z)
         (filter : Filter.t) (w : Trace),
    (exists t,
        snd (run engine (find this now filter) w) = w ++ t
        /\ loggedErrors t = []
        /\ guardedSearch now filter (issuedCalls t))
    /\ (exists t,
        snd (run engine (findTopIdsWithScore this now filter) w) = w ++ t
        /\ loggedErrors t = []
        /\ guardedSearch now filter (issuedCalls t)).
Proof.
  intros this engine now filter w.
  destruct (index this) as [idx |] eqn:Ei.
  - assert (Hi : index this <> None) by congruence.
    destruct (Z.eq_dec (getLimitFrom filter None) 0) as [Hz | Hn].
    + split; exists []; rewrite app_nil_r.
      * rewrite (run_find_limit_zero this engine now filter w Hz).
        repeat split. now left.
      * rewrite (run_findTopIdsWithScore_limit_zero this engine now filter w Hz).
        repeat split. now left.
    + assert (G : forall c params,
                 c = SearchDocuments (Filter.search filter) params ->
                 sp_filter params = buildSearchFilters now filter ->
                 sp_limit params = getLimitFrom filter None ->
                 forall f, guardedSearch now filter (issuedCalls [Issued c; Replied c f])).
      { intros c params -> Hf Hl f. right. exists params.
        split; [reflexivity |].
        split; [exact Hf |].
        split; [rewrite Hf; apply time_validity_head |].
        rewrite Hl, getLimitFrom_resolveLimit.
        split; [reflexivity |].
        split; [apply resolveLimit_le_1000 |].
        now rewrite <- getLimitFrom_resolveLimit. }
      split.
      * rewrite (run_find_enabled this engine now filter w Hi Hn). cbv zeta.
        eexists. split; [reflexivity |].
        split; [reflexivity |].
        eapply G; reflexivity.
      * rewrite (run_findTopIdsWithScore_enabled this engine now filter w Hi Hn).
        cbv zeta.
        eexists. split; [reflexivity |].
        split; [reflexivity |].
        eapply G; reflexivity.
  - split; exists []; rewrite app_nil_r.
    + rewrite (run_find_disabled this engine now filter w Ei).
      repeat split. now left.
    + rewrite (run_findTopIdsWithScore_disabled this engine now filter w Ei).
      repeat split. now left.
Qed.

(** A negative limit is neither rejected nor clamped: with search enabled,
    [find] and [findTopIdsWithScore] send their search with that negative
    limit. *)
Theorem negative_limit_is_forwarded :
  forall (this : EventSearchRepository) (engine : Engine) (now : Z)
         (filter : Filter.t) (w : Trace) (l : Z),
    index this <> None ->
    Filter.limit filter = Some l ->
    l < 0 ->
    (exists params,
        issuedCalls (snd (run engine (find this now filter) w))
        = issuedCalls w ++ [SearchDocuments (Filter.search filter) params]
        /\ sp_limit params = l)
    /\ (exists params,
        issuedCalls (snd (run engine (findTopIdsWithScore this now filter) w))
        = issuedCalls w ++ [SearchDocuments (Filter.search filter) params]
        /\ sp_limit params = l).
Proof.
  intros this engine now filter w l Hi Hl Hneg.
  assert (E : getLimitFrom filter None = l).
  { unfold getLimitFrom. rewrite Hl. simpl. lia. }
  assert (Hn : getLimitFrom filter None <> 0) by lia.
  split.
  - rewrite (run_find_enabled this engine now filter w Hi Hn). cbv zeta.
    simpl snd. rewrite issuedCalls_app. simpl.
    eexists. split; [reflexivity | exact E].
  - rewrite (run_findTopIdsWithScore_enabled this engine now filter w Hi Hn).
    cbv zeta. simpl snd. rewrite issuedCalls_app. simpl.
    eexists. split; [reflexivity | exact E].
Qed.

Lemma negative_limit_is_forwarded_witness :
  index enabledRepository <> None
  /\ Filter.limit (limitFilter (Some (-5))) = Some (-5)
  /\ -5 < 0
  /\ exists params,
       issuedCalls (snd (run acceptingEngine
                           (find enabledRepository 1700000000 (limitFilter (Some (-5))))
                           []))
       = issuedCalls [] ++ [SearchDocuments (Some "nostr") params]
       /\ sp_limit params = -5.
Proof.
  split; [discriminate |].
  split; [reflexivity |].
  split; [lia |].
  apply (negative_limit_is_forwarded enabledRepository acceptingEngine 1700000000
           (limitFilter (Some (-5))) [] (-5)).
  - discriminate.
  - reflexivity.
  - lia.
Defined.

(** ** Further properties of the clause list *)

Lemma in_clauseIf (condition : bool) (clause c : string) :
  In c (clauseIf condition clause) -> c = clause.
Proof.
  destruct condition; simpl; [| contradiction].
  intros [H | []]. now symmetry.
Qed.

(** Every clause [buildSearchFilters] emits starts with an attribute that
    [onApplicationBootstrap] declares filterable, and the key [find] sorts
    by is an attribute it declares sortable. *)
Theorem clauses_use_declared_attributes :
  forall (now : Z) (filter : Filter.t),
    Forall (fun clause =>
              In (clauseAttribute clause) (filterableAttributes indexSettings))
           (buildSearchFilters now filter)
    /\ match findRequest now filter with
       | SearchDocuments _ params =>
           Forall (fun key =>
                     In (sortAttribute key) (sortableAttributes indexSettings))
                  (elements (sp_sort params))
       | _ => False
       end.
Proof.
  intros now filter. split.
  - rewrite buildSearchFilters_shape.
    rewrite ?Forall_app.
    repeat split;
      try (apply Forall_forall; intros c Hc; apply in_clauseIf in Hc; subst c;
           cbn; tauto).
    + constructor; [cbn; tauto | constructor].
    + apply Forall_forall. intros c Hc.
      apply in_map_iff in Hc. destruct Hc as [g [<- _]].
      cbn. tauto.
  - cbn. constructor; [cbn; tauto | constructor].
Qed.

Lemma length_clauseIf (condition : bool) (clause : string) :
  List.length (clauseIf condition clause) = boolToNat condition.
Proof. now destruct condition. Qed.

(** The number of clauses: the time-validity clause, one clause for each of
    [ids], [kinds], [authors], [dTagValues] that is a non-empty array, one
    for each of [since], [until] that is a non-zero number, and one per
    group of [genericTagsCollection]. *)
Theorem clause_count :
  forall (now : Z) (filter : Filter.t),
    List.length (buildSearchFilters now filter)
    = (1 + boolToNat (hasLength (Filter.ids filter))
       + boolToNat (hasLength (Filter.kinds filter))
       + boolToNat (truthyNumber (Filter.since filter))
       + boolToNat (truthyNumber (Filter.until filter))
       + boolToNat (hasLength (Filter.authors filter))
       + List.length (elements (Filter.genericTagsCollection filter))
       + boolToNat (hasLength (Filter.dTagValues filter)))%nat.
Proof.
  intros now filter.
  rewrite buildSearchFilters_shape.
  rewrite ?List.length_app, ?length_clauseIf, List.length_map.
  simpl. lia.
Qed.

Lemma hasLength_dropEmpty {A : Type} (arr : option (list A)) :
  hasLength (dropEmpty arr) = hasLength arr.
Proof. now destruct arr as [[| x xs] |]. Qed.

Lemma elements_dropEmpty {A : Type} (arr : option (list A)) :
  elements (dropEmpty arr) = elements arr.
Proof. now destruct arr as [[| x xs] |]. Qed.

(** An empty array in [ids], [kinds], [authors], [dTagValues] or
    [genericTagsCollection] is treated like an absent one: it contributes no
    clause (in particular no clause that nothing could satisfy). *)
Theorem empty_arrays_are_ignored :
  forall (now : Z) (filter : Filter.t),
    buildSearchFilters now (withoutEmptyArrays filter)
    = buildSearchFilters now filter.
Proof.
  intros now filter.
  rewrite !buildSearchFilters_shape.
  unfold withoutEmptyArrays. simpl.
  now rewrite ?hasLength_dropEmpty, ?elements_dropEmpty.
Qed.

Lemma map_clauseRank_clauseIf (condition : bool) (clause : string) :
  map clauseRank (clauseIf condition clause)
  = if condition then [clauseRank clause] else [].
Proof. now destruct condition. Qed.

Lemma map_clauseRank_genericTags (groups : list (list string)) :
  map clauseRank (map genericTagsClause groups) = repeat 6%nat (List.length groups).
Proof.
  induction groups as [| g groups IH]; simpl; [reflexivity |].
  now rewrite IH.
Qed.

Lemma sorted_repeat_tail (k : nat) (tail : list nat) :
  Forall (le 6) tail ->
  StronglySorted le tail ->
  StronglySorted le (repeat 6%nat k ++ tail).
Proof.
  intros Ht Hs.
  induction k as [| k IH]; simpl; [exact Hs |].
  constructor; [exact IH |].
  apply Forall_app. split.
  - apply Forall_forall. intros x Hx. apply repeat_spec in Hx. subst x. constructor.
  - exact Ht.
Qed.

Lemma forall_le_repeat_tail (a k : nat) (tail : list nat) :
  (a <= 6)%nat ->
  Forall (le 6) tail ->
  Forall (le a) (repeat 6%nat k ++ tail).
Proof.
  intros Ha Ht.
  apply Forall_app. split.
  - apply Forall_forall. intros x Hx. apply repeat_spec in Hx. subst x. exact Ha.
  - eapply Forall_impl; [| exact Ht]. intros x Hx. simpl in Hx. lia.
Qed.

Ltac sorted_clauses :=
  repeat match goal with
         | |- StronglySorted le (repeat _ _ ++ _) =>
             apply sorted_repeat_tail; repeat constructor
         | |- StronglySorted le (_ :: _) => constructor
         | |- Forall (le _) (repeat _ _ ++ _) =>
             apply forall_le_repeat_tail; [lia | repeat constructor]
         | |- Forall (le _) (_ :: _) => constructor; [lia |]
         end.

(** The clauses come in a fixed order, whatever the filter: the
    time-validity clause, then the [id], [kind], [createdAt >=],
    [createdAt <=] and [author] clauses, then the [genericTags] clauses,
    then the [dTagValue] clause. *)
Theorem clauses_in_fixed_order :
  forall (now : Z) (filter : Filter.t),
    StronglySorted le (map clauseRank (buildSearchFilters now filter))
    /\ clauseRank (timeValidityClause now) = 0%nat
    /\ (forall xs, clauseRank (idsClause xs) = 1%nat)
    /\ (forall xs, clauseRank (kindsClause xs) = 2%nat)
    /\ (forall n, clauseRank (sinceClause n) = 3%nat)
    /\ (forall n, clauseRank (untilClause n) = 4%nat)
    /\ (forall xs, clauseRank (authorsClause xs) = 5%nat)
    /\ (forall xs, clauseRank (genericTagsClause xs) = 6%nat)
    /\ (forall xs, clauseRank (dTagValuesClause xs) = 7%nat).
Proof.
  intros now filter.
  split; [| repeat split; reflexivity].
  rewrite buildSearchFilters_shape.
  rewrite ?map_app, ?map_clauseRank_clauseIf, map_clauseRank_genericTags.
  change (map clauseRank [timeValidityClause now]) with [0%nat].
  change (clauseRank (idsClause (elements (Filter.ids filter)))) with 1%nat.
  change (clauseRank (kindsClause (elements (Filter.kinds filter)))) with 2%nat.
  change (clauseRank
            (sinceClause match Filter.since filter with Some s => s | None => 0 end))
    with 3%nat.
  change (clauseRank
            (untilClause match Filter.until filter with Some u => u | None => 0 end))
    with 4%nat.
  change (clauseRank (authorsClause (elements (Filter.authors filter)))) with 5%nat.
  change (clauseRank (dTagValuesClause (elements (Filter.dTagValues filter))))
    with 7%nat.
  destruct (hasLength (Filter.ids filter)), (hasLength (Filter.kinds filter)),
    (truthyNumber (Filter.since filter)), (truthyNumber (Filter.until filter)),
    (hasLength (Filter.authors filter)), (hasLength (Filter.dTagValues filter));
    simpl; sorted_clauses.
Qed.

(** ** Further properties of the mappers *)

(** [toEventDocument] and [toEvent] are inverse to each other on all eleven
    fields: no field of an event or of a document is lost or altered in
    either direction. *)
Theorem mappers_are_mutually_inverse :
  (forall e : Event.t, toEvent (toEventDocument e) = e)
  /\ (forall d : EventDocument.t, toEventDocument (toEvent d) = d).
Proof.
  split.
  - intros e. now destruct e.
  - intros d. now destruct d.
Qed.

(** ** Further properties of [replace] *)

(** Awaiting a method together with a value that is settled from the start
    is running the method alone. *)
Lemma promise_all_settled_right {A B : Type} (engine : Engine) (sched : Scheduler)
  (m : Async A) (b : B) (w : Trace) :
  promise_all engine sched m (Return b) w
  = (match fst (run engine m w) with
     | inl e => inl e
     | inr a => inr (a, b)
     end,
     snd (run engine m w)).
Proof.
  unfold promise_all. simpl start at 1.
  revert w.
  induction m as [a | e | e k IH | c k IH]; intros w; simpl.
  - reflexivity.
  - reflexivity.
  - apply IH.
  - apply IH.
Qed.

Lemma run_add_returns (this : EventSearchRepository) (event : Event.t)
  (engine : Engine) (w : Trace) :
  fst (run engine (add this event) w) = inr tt.
Proof.
  destruct (index this) eqn:Ei.
  - destruct (includes (syncEventKinds this) (Event.kind event)) eqn:Ek.
    + rewrite run_add_enabled; [reflexivity | congruence | exact Ek].
    + now rewrite run_add_gated.
  - now rewrite run_add_disabled.
Qed.

Lemma replace_without_old_id_is_add_aux (this : EventSearchRepository)
  (event : Event.t) (oldEventId : option string) (engine : Engine)
  (sched : Scheduler) (w : Trace) :
  truthyString oldEventId = false ->
  replace this event oldEventId engine sched w = run engine (add this event) w.
Proof.
  intros Ho.
  destruct (index this) eqn:Ei.
  - unfold replace. rewrite Ei, Ho. simpl isNil. cbv iota.
    rewrite promise_all_settled_right.
    pose proof (run_add_returns this event engine w) as Hr.
    destruct (run engine (add this event) w) as [r w']. simpl in *.
    now rewrite Hr.
  - now rewrite replace_disabled, run_add_disabled.
Qed.

(** [replace] without an old id to delete ([undefined], [null] or the empty
    string) does what [add] does, whatever the engine and the scheduler. *)
Theorem replace_without_old_id_is_add :
  forall (this : EventSearchRepository) (event : Event.t)
         (oldEventId : option string) (engine : Engine) (sched : Scheduler)
         (w : Trace),
    truthyString oldEventId = false ->
    replace this event oldEventId engine sched w = run engine (add this event) w.
Proof.
  intros this event oldEventId engine sched w.
  apply replace_without_old_id_is_add_aux.
Qed.

Lemma replace_without_old_id_is_add_witness :
  truthyString (Some ""%string) = false
  /\ replace enabledRepository (sampleEvent 1) (Some ""%string) upsertRejectingEngine
       (fun _ => false) []
     = run upsertRejectingEngine (add enabledRepository (sampleEvent 1)) [].
Proof.
  split; [reflexivity |].
  apply (replace_without_old_id_is_add enabledRepository (sampleEvent 1)
           (Some ""%string) upsertRejectingEngine (fun _ => false) []).
  reflexivity.
Defined.

Lemma issuedCalls_logOf (failure : option Error) : issuedCalls (logOf failure) = [].
Proof. now destruct failure. Qed.

Lemma truthyString_true (s : option string) :
  truthyString s = true -> exists i, s = Some i /\ i <> ""%string.
Proof.
  destruct s as [[| a s] |]; simpl; intros H; try discriminate H.
  eexists. split; [reflexivity | discriminate].
Qed.

Ltac calls_of_trace :=
  repeat (progress (rewrite ?issuedCalls_app, ?issuedCalls_logOf, ?app_nil_r; simpl));
  rewrite <- ?app_assoc; simpl.

(** [replace] never fails, and what it sends does not depend on the engine's
    answers nor on the order of the replies: with search enabled, the upsert
    of the event when its kind is in the allow-list, then the deletion of the
    old id when one is given and is not the empty string; nothing when
    search is disabled. *)
Theorem replace_requests :
  forall (this : EventSearchRepository) (event : Event.t)
         (oldEventId : option string) (engine : Engine) (sched : Scheduler)
         (w : Trace),
    fst (replace this event oldEventId engine sched w) = inr tt
    /\ issuedCalls (snd (replace this event oldEventId engine sched w))
       = issuedCalls w
         ++ (if isNil (index this) then []
             else
               (if includes (syncEventKinds this) (Event.kind event)
                then [AddDocuments [toEventDocument event]]
                else [])
               ++ (if truthyString oldEventId
                   then [DeleteDocuments
                           [match oldEventId with Some i => i | None => ""%string end]]
                   else [])).
Proof.
  intros this event oldEventId engine sched w.
  destruct (index this) as [idx |] eqn:Ei.
  - assert (Hi : index this <> None) by congruence.
    simpl isNil. cbv iota.
    destruct (truthyString oldEventId) eqn:Ho.
    + destruct (truthyString_true _ Ho) as [i [-> Hne]].
      destruct (includes (syncEventKinds this) (Event.kind event)) eqn:Ek.
      * rewrite (replace_both_trace this event i engine sched w Hi Hne Ek).
        cbv zeta.
        destruct (sched _); simpl fst; simpl snd;
          (split; [reflexivity |]); now calls_of_trace.
      * rewrite (replace_delete_only_trace this event i engine sched w Hi Hne Ek).
        cbv zeta. simpl fst. simpl snd.
        split; [reflexivity |]. now calls_of_trace.
    + rewrite (replace_without_old_id_is_add_aux this event oldEventId engine sched w Ho).
      split; [apply run_add_returns |].
      destruct (includes (syncEventKinds this) (Event.kind event)) eqn:Ek.
      * rewrite (run_add_enabled this engine w event Hi Ek). cbv zeta. simpl snd.
        now calls_of_trace.
      * rewrite (run_add_gated this engine w event Ek). simpl.
        now rewrite app_nil_r.
  - rewrite (replace_disabled this engine w event oldEventId sched Ei).
    simpl. now rewrite app_nil_r.
Qed.

(** ** The constructor *)



(** ** The event constants *)

(** The values of [EventKind] are pairwise distinct, so the enum object
    answers both ways without loss: the value stored under a member's name
    is found back under that name, and the name stored under a member's
    value is that member's name. *)
Theorem eventKind_mappings_round_trip :
  forall k : EventKind.t,
    EventKind.valueOf (EventKind.name k) = Some (EventKind.value k)
    /\ EventKind.nameOf (EventKind.value k) = Some (EventKind.name k)
    /\ forall k' : EventKind.t,
         EventKind.value k' = EventKind.value k <-> k' = k.
Proof.
  intros k.
  split; [now destruct k |].
  split; [now destruct k |].
  intros k'. split.
  - destruct k, k'; simpl; intros H; solve [reflexivity | discriminate H].
  - now intros ->.
Qed.

(** The four ranges of kinds delimited by the enum ([REGULAR],
    [REPLACEABLE], [EPHEMERAL], [PARAMETERIZED_REPLACEABLE]) are adjacent
    and do not overlap: every kind from [REGULAR_FIRST] to
    [PARAMETERIZED_REPLACEABLE_LAST] lies in exactly one of them. *)
Theorem kind_ranges_partition :
  forall kind : Z,
    EventKind.value EventKind.REGULAR_FIRST <= kind ->
    kind <= EventKind.value EventKind.PARAMETERIZED_REPLACEABLE_LAST ->
    (boolToNat (EventKind.between EventKind.REGULAR_FIRST EventKind.REGULAR_LAST kind)
     + boolToNat (EventKind.between EventKind.REPLACEABLE_FIRST
                    EventKind.REPLACEABLE_LAST kind)
     + boolToNat (EventKind.between EventKind.EPHEMERAL_FIRST
                    EventKind.EPHEMERAL_LAST kind)
     + boolToNat (EventKind.between EventKind.PARAMETERIZED_REPLACEABLE_FIRST
                    EventKind.PARAMETERIZED_REPLACEABLE_LAST kind))%nat
    = 1%nat.
Proof.
  intros kind Hlo Hhi.
  unfold EventKind.between. simpl in *.
  destruct (Z.leb_spec 1000 kind), (Z.leb_spec kind 9999),
    (Z.leb_spec 10000 kind), (Z.leb_spec kind 19999),
    (Z.leb_spec 20000 kind), (Z.leb_spec kind 29999),
    (Z.leb_spec 30000 kind), (Z.leb_spec kind 39999);
    simpl; lia.
Qed.

Lemma kind_ranges_partition_witness :
  EventKind.value EventKind.REGULAR_FIRST <= EventKind.value EventKind.AUTHENTICATION
  /\ EventKind.value EventKind.AUTHENTICATION
     <= EventKind.value EventKind.PARAMETERIZED_REPLACEABLE_LAST
  /\ (boolToNat (EventKind.between EventKind.REGULAR_FIRST EventKind.REGULAR_LAST
                   (EventKind.value EventKind.AUTHENTICATION))
      + boolToNat (EventKind.between EventKind.REPLACEABLE_FIRST
                     EventKind.REPLACEABLE_LAST
                     (EventKind.value EventKind.AUTHENTICATION))
      + boolToNat (EventKind.between EventKind.EPHEMERAL_FIRST
                     EventKind.EPHEMERAL_LAST
                     (EventKind.value EventKind.AUTHENTICATION))
      + boolToNat (EventKind.between EventKind.PARAMETERIZED_REPLACEABLE_FIRST
                     EventKind.PARAMETERIZED_REPLACEABLE_LAST
                     (EventKind.value EventKind.AUTHENTICATION)))%nat
     = 1%nat.
Proof.
  split; [simpl; lia |].
  split; [simpl; lia |].
  apply (kind_ranges_partition (EventKind.value EventKind.AUTHENTICATION));
    simpl; lia.
Defined.

(** The table of standard single-letter tag names has no duplicate, each of
    its entries is one character long, and a [TagName] is in the table
    exactly when it is a single letter ([e], [p] and [d]). *)
Theorem standard_tag_names_table :
  NoDup STANDARD_SINGLE_LETTER_TAG_NAMES
  /\ Forall (fun tagName => String.length tagName = 1%nat)
       STANDARD_SINGLE_LETTER_TAG_NAMES
  /\ forall tagName : TagName.t,
       In (TagName.value tagName) STANDARD_SINGLE_LETTER_TAG_NAMES
       <-> String.length (TagName.value tagName) = 1%nat.
Proof.
  split.
  - unfold STANDARD_SINGLE_LETTER_TAG_NAMES.
    repeat (constructor; [simpl; intuition discriminate |]).
    constructor.
  - split.
    + repeat constructor.
    + intros tagName. split.
      * destruct tagName; simpl; intros H; try reflexivity;
          repeat (destruct H as [H | H]; [discriminate H |]); contradiction.
      * destruct tagName; simpl; intros H; try discriminate H; tauto.
Qed.

(** ** Interpolation of the values *)



